(** * Chat orchestration core of the e-commerce assistant

    A shallow embedding of the chat side of the repository:
    - [src/domain/entities.py]        (ChatMessage, ChatContext, Product)
    - [src/domain/exceptions.py]      (ChatServiceError)
    - [src/application/dtos.py]       (request / response / history DTOs)
    - [src/infrastructure/db/models.py] and
      [src/infrastructure/repositories/chat_repository.py] (SQLChatRepository)
    - [src/infrastructure/llm_providers/gemini_service.py] (GeminiService)
    - [src/application/chat_service.py] (ChatService)

    Python values are modelled as follows.  A [str] is the list of its
    Unicode code points; an [int] is a [Z]; a timezone-aware UTC [datetime]
    is the [Z] number of microseconds since the epoch; [None]-able values
    are [option]s; a raised exception is the left injection of a sum.  *)

From Stdlib Require Import String Ascii PrimFloat.
From Stdlib Require Import ZArith NArith List Bool Lia Permutation Sorted.
Import ListNotations.

Set Implicit Arguments.

(* ================================================================== *)
(** * Python builtins used by the code *)
(* ================================================================== *)

Module Py.

(** A Python [str]: a sequence of Unicode code points. *)
Definition char := N.
Definition str := list char.

(** An ASCII literal, code point by code point. *)
Definition lit (s : string) : str :=
  List.map N_of_ascii (list_ascii_of_string s).
Arguments lit s%_string.

(** Truthiness of a [str]: only the empty string is falsy. *)
Definition truthy (s : str) : bool :=
  match s with [] => false | _ :: _ => true end.

Fixpoint str_eqb (a b : str) : bool :=
  match a, b with
  | [], [] => true
  | x :: a', y :: b' => N.eqb x y && str_eqb a' b'
  | _, _ => false
  end.

(** [str.isspace] on one code point (CPython's [_PyUnicode_IsWhitespace]):
    U+0009..U+000D, U+001C..U+0020, U+0085, U+00A0, U+1680,
    U+2000..U+200A, U+2028, U+2029, U+202F, U+205F, U+3000. *)
Definition isspace (c : char) : bool :=
  ((9 <=? c) && (c <=? 13) || (28 <=? c) && (c <=? 32)
   || (c =? 133) || (c =? 160) || (c =? 5760)
   || (8192 <=? c) && (c <=? 8202)
   || (c =? 8232) || (c =? 8233) || (c =? 8239) || (c =? 8287)
   || (c =? 12288))%N.

Fixpoint lstrip (s : str) : str :=
  match s with
  | [] => []
  | c :: s' => if isspace c then lstrip s' else s
  end.

Definition rstrip (s : str) : str := rev (lstrip (rev s)).

(** [s.strip()] with no argument. *)
Definition strip (s : str) : str := rstrip (lstrip s).

(** [sep.join(parts)]. *)
Fixpoint join (sep : str) (parts : list str) : str :=
  match parts with
  | [] => []
  | [p] => p
  | p :: rest => p ++ sep ++ join sep rest
  end.

(** [needle in haystack] for strings. *)
Fixpoint startswith (prefix s : str) : bool :=
  match prefix, s with
  | [], _ => true
  | p :: prefix', c :: s' => N.eqb p c && startswith prefix' s'
  | _ :: _, [] => false
  end.

Fixpoint contains (needle haystack : str) : bool :=
  startswith needle haystack
  || match haystack with
     | [] => false
     | _ :: rest => contains needle rest
     end.

(** [str(n)] for an [int]: the decimal digits, with a minus sign. *)
Fixpoint digits (u : Decimal.uint) : str :=
  match u with
  | Decimal.Nil => []
  | Decimal.D0 u' => 48%N :: digits u'
  | Decimal.D1 u' => 49%N :: digits u'
  | Decimal.D2 u' => 50%N :: digits u'
  | Decimal.D3 u' => 51%N :: digits u'
  | Decimal.D4 u' => 52%N :: digits u'
  | Decimal.D5 u' => 53%N :: digits u'
  | Decimal.D6 u' => 54%N :: digits u'
  | Decimal.D7 u' => 55%N :: digits u'
  | Decimal.D8 u' => 56%N :: digits u'
  | Decimal.D9 u' => 57%N :: digits u'
  end.

Definition str_of_int (n : Z) : str :=
  match Z.to_int n with
  | Decimal.Pos u => digits u
  | Decimal.Neg u => 45%N :: digits u
  end.

(** [l[start:]]: a negative start counts from the end and is clamped
    at the beginning, a start past the end gives the empty list. *)
Definition slice_from {A} (start : Z) (l : list A) : list A :=
  let len := Z.of_nat (length l) in
  let s := if (start <? 0)%Z then Z.max (start + len) 0 else Z.min start len in
  skipn (Z.to_nat s) l.

(** [sorted(l, key=key)] for integer keys.  Python's sort is stable;
    the model is the insertion sort that puts an element before the
    first element of the sorted tail whose key is not smaller. *)
Section Sorted.
Variable A : Type.
Variable key : A -> Z.

Fixpoint insert (x : A) (l : list A) : list A :=
  match l with
  | [] => [x]
  | y :: l' => if (key y <? key x)%Z then y :: insert x l' else x :: y :: l'
  end.

Fixpoint sorted (l : list A) : list A :=
  match l with
  | [] => []
  | x :: l' => insert x (sorted l')
  end.
End Sorted.

End Py.

Import Py.

(* ================================================================== *)
(** * src/domain/exceptions.py and the builtin exceptions *)
(* ================================================================== *)

Module Exceptions.

Inductive exn_class :=
| ValueError          (* builtin, raised by the entity validators *)
| ValidationError     (* pydantic *)
| IntegrityError      (* sqlalchemy *)
| ChatServiceError    (* src/domain/exceptions.py *)
| OtherError.         (* anything a collaborator may raise *)

(** A raised exception: its class and [str(e)]. *)
Record exn := Raised { exn_cls : exn_class; exn_str : str }.

(** [ChatServiceError(message)]. *)
Definition ChatServiceError_new (message : str) : exn :=
  if truthy message
  then Raised ChatServiceError (lit "Error en el servicio de chat: " ++ message)
  else Raised ChatServiceError (lit "Error en el servicio de chat").

(** The outcome of a call: an exception or a value. *)
Definition result (A : Type) := (exn + A)%type.
Definition Ok {A} (a : A) : result A := inr a.
Definition Raise {A} (e : exn) : result A := inl e.

Definition rbind {A B} (r : result A) (k : A -> result B) : result B :=
  match r with
  | inl e => inl e
  | inr a => k a
  end.

(** [[f(x) for x in l]] where [f] may raise: the first exception wins. *)
Fixpoint rmap {A B} (f : A -> result B) (l : list A) : result (list B) :=
  match l with
  | [] => Ok []
  | x :: l' =>
      rbind (f x) (fun y => rbind (rmap f l') (fun ys => Ok (y :: ys)))
  end.

End Exceptions.

Import Exceptions.

(* ================================================================== *)
(** * src/domain/entities.py *)
(* ================================================================== *)

Module Entities.

(** [Product]: opaque to the chat core except for rendering. *)
Record Product := {
  product_id : option Z;
  name : str;
  brand : str;
  category : str;
  size : str;
  color : str;
  price : float;
  stock : Z;
  description : str
}.

(** The fields of a [ChatMessage]. *)
Record ChatMessage := {
  id : option Z;
  session_id : str;
  role : str;
  message : str;
  timestamp : Z
}.

(** [not s or not s.strip()]. *)
Definition blank (s : str) : bool :=
  negb (truthy s) || negb (truthy (strip s)).

(** [ChatMessage.__post_init__]: the three checks, in source order. *)
Definition post_init (m : ChatMessage) : result unit :=
  if blank (session_id m) then
    Raise (Raised ValueError (lit "session_id no puede estar vac" ++ [237%N; 111%N]))
  else if blank (message m) then
    Raise (Raised ValueError (lit "message no puede estar vac" ++ [237%N; 111%N]))
  else if negb (str_eqb (role m) (lit "user") || str_eqb (role m) (lit "assistant")) then
    Raise (Raised ValueError (lit "role debe ser 'user' o 'assistant'"))
  else Ok tt.

(** [ChatMessage(id=..., session_id=..., role=..., message=..., timestamp=...)]:
    the dataclass stores the fields, then runs [__post_init__]. *)
Definition ChatMessage_new (i : option Z) (sid r msg : str) (ts : Z)
  : result ChatMessage :=
  let m := {| id := i; session_id := sid; role := r; message := msg; timestamp := ts |} in
  rbind (post_init m) (fun _ => Ok m).

Definition is_from_user (m : ChatMessage) : bool := str_eqb (role m) (lit "user").
Definition is_from_assistant (m : ChatMessage) : bool := str_eqb (role m) (lit "assistant").

(** [ChatContext]: a message list and [max_messages] (default 6). *)
Record ChatContext := {
  messages : list ChatMessage;
  max_messages : Z
}.

Definition ChatContext_new (msgs : list ChatMessage) : ChatContext :=
  {| messages := msgs; max_messages := 6 |}.

(** [ChatContext.get_recent_messages]:
    [recent = self.messages[-self.max_messages:]], then
    [recent if len(recent) == 0 else sorted(recent, key=lambda m: m.timestamp)]. *)
Definition get_recent_messages (ctx : ChatContext) : list ChatMessage :=
  let recent := slice_from (- max_messages ctx) (messages ctx) in
  if Nat.eqb (length recent) 0 then recent else sorted timestamp recent.

(** The list [lines] built by [format_for_prompt], one entry per message. *)
Definition prompt_lines (ctx : ChatContext) : list str :=
  List.map
    (fun msg =>
       let r := if is_from_user msg then lit "Usuario" else lit "Asistente" in
       r ++ lit ": " ++ message msg)
    (get_recent_messages ctx).

(** [ChatContext.format_for_prompt]. *)
Definition format_for_prompt (ctx : ChatContext) : str :=
  join [10%N] (prompt_lines ctx).

End Entities.

Import Entities.

(* ================================================================== *)
(** * src/application/dtos.py *)
(* ================================================================== *)

Module ChatMessageRequestDTO.
Record t := { session_id : str; message : str }.

(** [@field_validator('message')]. *)
Definition message_not_empty (v : str) : result str :=
  if blank v
  then Raise (Raised ValueError (lit "El mensaje no puede estar vac" ++ [237%N; 111%N]))
  else Ok v.

(** [@field_validator('session_id')]. *)
Definition session_id_not_empty (v : str) : result str :=
  if blank v
  then Raise (Raised ValueError (lit "El session_id no puede estar vac" ++ [237%N; 111%N]))
  else Ok v.

(** [ChatMessageRequestDTO(session_id=..., message=...)]: pydantic runs
    the field validators and raises its own error when one of them does. *)
Definition new (sid msg : str) : result t :=
  match session_id_not_empty sid, message_not_empty msg with
  | inr s, inr m => Ok {| session_id := s; message := m |}
  | inl e, _ => Raise (Raised ValidationError (exn_str e))
  | _, inl e => Raise (Raised ValidationError (exn_str e))
  end.
End ChatMessageRequestDTO.

Module ChatMessageResponseDTO.
Record t := {
  session_id : str;
  user_message : str;
  assistant_message : str;
  timestamp : Z
}.
End ChatMessageResponseDTO.

Module ChatHistoryDTO.
Record t := { id : Z; role : str; message : str; timestamp : Z }.

(** [ChatHistoryDTO.model_validate(msg)] with [from_attributes]: the
    field [id] is a required [int], so an entity without identity is
    refused. *)
Definition model_validate (msg : ChatMessage) : result t :=
  match Entities.id msg with
  | None => Raise (Raised ValidationError (lit "id: Input should be a valid integer"))
  | Some i =>
      Ok {| id := i; role := Entities.role msg;
            message := Entities.message msg;
            timestamp := Entities.timestamp msg |}
  end.
End ChatHistoryDTO.

(* ================================================================== *)
(** * The world of one request: the [chat_memory] table and the clock *)
(* ================================================================== *)

Module Db.

(** [ChatMemoryModel] (src/infrastructure/db/models.py): a row of the
    table [chat_memory]; [id] is [None] until the row is inserted. *)
Record ChatMemoryModel := {
  id : option Z;
  session_id : str;
  role : str;
  message : str;
  timestamp : Z
}.

(** The table, rows in insertion order. *)
Definition table := list ChatMemoryModel.

(** The state a request runs in: the table, the journal of the states
    the table went through (one entry per commit, oldest first), and the
    wall clock, given as the sequence of its successive readings. *)
Record World := {
  chat_memory : table;
  journal : list table;
  clock : nat -> Z;
  reads : nat
}.

(** A computation that reads and writes the world and may raise; what
    was committed before an exception stays committed. *)
Definition M (A : Type) := World -> result A * World.

Definition ret {A} (a : A) : M A := fun w => (Ok a, w).
Definition raise {A} (e : exn) : M A := fun w => (Raise e, w).
Definition bind {A B} (c : M A) (k : A -> M B) : M B :=
  fun w => match c w with
           | (inl e, w') => (inl e, w')
           | (inr a, w') => k a w'
           end.
Definition lift {A} (r : result A) : M A := fun w => (r, w).

(** [try: c  except Exception as e: h(e)]. *)
Definition try_except {A} (c : M A) (h : exn -> M A) : M A :=
  fun w => match c w with
           | (inl e, w') => h e w'
           | (inr a, w') => (inr a, w')
           end.

(** [datetime.now(timezone.utc)]: the next reading of the clock. *)
Definition now : M Z :=
  fun w => (Ok (clock w (reads w)),
            {| chat_memory := chat_memory w; journal := journal w;
               clock := clock w; reads := S (reads w) |}).

Definition get_table : M table := fun w => (Ok (chat_memory w), w).
(** A commit: the table takes its new state, which the journal records. *)
Definition put_table (t : table) : M unit :=
  fun w => (Ok tt, {| chat_memory := t; journal := journal w ++ [t];
                      clock := clock w; reads := reads w |}).

(** The integer primary key SQLite gives a row inserted without one:
    one more than the largest key in use. *)
Definition next_rowid (t : table) : Z :=
  (1 + fold_right (fun r acc => match id r with Some i => Z.max i acc | None => acc end) 0 t)%Z.

Definition has_rowid (i : Z) (t : table) : bool :=
  existsb (fun r => match id r with Some j => Z.eqb i j | None => false end) t.

(** [db.add(model); db.commit(); db.refresh(model)]: the row as stored.
    A timestamp stands for the instant of the datetime (the column keeps
    its date and time, without the time zone), and the texts are texts
    SQLite holds. *)
Definition add_commit_refresh (model : ChatMemoryModel) : M ChatMemoryModel :=
  bind get_table (fun t =>
    match id model with
    | None =>
        let row := {| id := Some (next_rowid t); session_id := session_id model;
                      role := role model; message := message model;
                      timestamp := timestamp model |} in
        bind (put_table (t ++ [row])) (fun _ => ret row)
    | Some i =>
        if has_rowid i t
        then raise (Raised IntegrityError (lit "UNIQUE constraint failed: chat_memory.id"))
        else bind (put_table (t ++ [model])) (fun _ => ret model)
    end).

(** [.filter(ChatMemoryModel.session_id == session_id)]. *)
Definition filter_session (sid : str) (t : table) : table :=
  filter (fun r => str_eqb (session_id r) sid) t.

(** [.limit(n)] on SQLite: a negative bound means no bound. *)
Definition limit (n : Z) (rows : table) : table :=
  if (n <? 0)%Z then rows else firstn (Z.to_nat n) rows.

(** [.order_by(desc(ChatMemoryModel.timestamp))] is the engine's: SQL
    fixes the result up to the order of rows with equal timestamps. *)
Class Engine := { order_by_desc_timestamp : table -> table }.

Definition desc_timestamp (a b : ChatMemoryModel) : Prop :=
  (timestamp b <= timestamp a)%Z.

Definition engine_ok (E : Engine) : Prop :=
  (forall rows, Permutation rows (order_by_desc_timestamp rows)) /\
  (forall rows, Sorted desc_timestamp (order_by_desc_timestamp rows)).

(** An engine that keeps rows with equal timestamps in insertion order. *)
Definition stable_engine : Engine :=
  {| order_by_desc_timestamp := sorted (fun r => (- timestamp r)%Z) |}.

End Db.

Import Db.

Declare Scope m_scope.
Notation "x <- c ;; k" := (bind c (fun x => k))
  (at level 61, c at next level, right associativity) : m_scope.
Notation "c ;;; k" := (bind c (fun _ => k))
  (at level 61, right associativity) : m_scope.
Local Open Scope m_scope.

(* ================================================================== *)
(** * src/infrastructure/repositories/chat_repository.py *)
(* ================================================================== *)

Module SQLChatRepository.
Section Repo.
Context {E : Engine}.

Definition _model_to_entity (model : ChatMemoryModel) : result ChatMessage :=
  ChatMessage_new (Db.id model) (Db.session_id model) (Db.role model)
                  (Db.message model) (Db.timestamp model).

Definition _entity_to_model (entity : ChatMessage) : ChatMemoryModel :=
  {| Db.id := Entities.id entity;
     Db.session_id := Entities.session_id entity;
     Db.role := Entities.role entity;
     Db.message := Entities.message entity;
     Db.timestamp := Entities.timestamp entity |}.

Definition save_message (message : ChatMessage) : M ChatMessage :=
  model <- add_commit_refresh (_entity_to_model message) ;;
  lift (_model_to_entity model).

(** [if limit:] is false for [None] and for [0]. *)
Definition get_session_history (session_id : str) (limit : option Z)
  : M (list ChatMessage) :=
  t <- get_table ;;
  let query := order_by_desc_timestamp (filter_session session_id t) in
  let query :=
    match limit with
    | Some n => if Z.eqb n 0 then query else Db.limit n query
    | None => query
    end in
  let models := rev query in
  lift (rmap _model_to_entity models).

Definition delete_session_history (session_id : str) : M Z :=
  t <- get_table ;;
  let models := filter_session session_id t in
  let deleted_count := Z.of_nat (length models) in
  put_table (filter (fun r => negb (str_eqb (Db.session_id r) session_id)) t) ;;;
  ret deleted_count.

Definition get_recent_messages (session_id : str) (count : Z)
  : M (list ChatMessage) :=
  t <- get_table ;;
  let query := Db.limit count (order_by_desc_timestamp (filter_session session_id t)) in
  let models := rev query in
  lift (rmap _model_to_entity models).
End Repo.
End SQLChatRepository.

(* ================================================================== *)
(** * src/infrastructure/llm_providers/gemini_service.py *)
(* ================================================================== *)

Module GeminiService.

(** What [generate_content_async] hands back: evaluating [response.text]
    gives a string, [None], or raises (the accessor is a property). *)
Record GenerateContentResponse := { text : result (option str) }.

(** [self.model]: the remote call raises or returns a response object,
    possibly [None]. *)
Record t := {
  generate_content_async : str -> result (option GenerateContentResponse)
}.

Definition newline : str := [10%N].

Section Service.
(** [f"{x:.2f}"], the two-decimal rendering of a float. *)
Variable format_2f : float -> str.
Variable self : t.

(** For [Product] values every attribute exists, so the
    [AttributeError] fallback of the source is never entered. *)
Definition format_products_info (products : list Product) : str :=
  match products with
  | [] => lit "No hay productos disponibles en este momento."
  | _ :: _ =>
      join newline
        (List.map
           (fun p => lit "- " ++ name p ++ lit " | " ++ brand p ++ lit " | $"
                     ++ format_2f (price p) ++ lit " | Stock: "
                     ++ str_of_int (stock p))
           products)
  end.

Definition placeholder : str := lit "No se pudo generar una respuesta.".

(** [response.text if response and response.text else "No se pudo..."],
    any exception wrapped in a [ChatServiceError]. *)
Definition _generate_text (prompt : str) : result str :=
  let body :=
    rbind (generate_content_async self prompt) (fun response =>
      match response with
      | None => Ok placeholder
      | Some r =>
          rbind (text r) (fun txt =>
            match txt with
            | Some s => if truthy s then Ok s else Ok placeholder
            | None => Ok placeholder
            end)
      end) in
  match body with
  | inr s => Ok s
  | inl e => Raise (ChatServiceError_new (lit "Error en la API de Gemini: " ++ exn_str e))
  end.

Definition no_previous_messages : str := lit "No hay mensajes previos.".

(** [context.format_for_prompt() if context else "No hay mensajes previos."]:
    a [ChatContext] defines neither [__bool__] nor [__len__], so every
    instance is truthy and only [None] takes the second branch. *)
Definition context_text (context : option ChatContext) : str :=
  match context with
  | Some ctx => format_for_prompt ctx
  | None => no_previous_messages
  end.

Definition conversation_header : str :=
  lit "CONVERSACI" ++ [211%N] ++ lit "N ANTERIOR:" ++ newline.

(** The f-string of [generate_response]. *)
Definition build_prompt (products_text ctx_text user_message : str) : str :=
  newline
  ++ lit "Eres un asistente virtual experto en ventas de zapatos para un e-commerce." ++ newline
  ++ lit "Tu objetivo es ayudar a los clientes a encontrar los zapatos perfectos." ++ newline
  ++ newline
  ++ lit "PRODUCTOS DISPONIBLES:" ++ newline
  ++ products_text ++ newline
  ++ newline
  ++ lit "INSTRUCCIONES:" ++ newline
  ++ lit "- S" ++ [233%N] ++ lit " amigable y profesional" ++ newline
  ++ lit "- Usa el contexto de la conversaci" ++ [243%N] ++ lit "n anterior" ++ newline
  ++ lit "- Recomienda productos espec" ++ [237%N] ++ lit "ficos cuando sea apropiado" ++ newline
  ++ lit "- Menciona precios, tallas y disponibilidad" ++ newline
  ++ lit "- Si no tienes informaci" ++ [243%N] ++ lit "n, s" ++ [233%N] ++ lit " honesto" ++ newline
  ++ newline
  ++ conversation_header
  ++ ctx_text ++ newline
  ++ newline
  ++ lit "Usuario: " ++ user_message ++ newline
  ++ newline
  ++ lit "Asistente:" ++ newline.

(** The prompt [generate_response] sends. *)
Definition prompt_of (user_message : str) (products : list Product)
           (context : option ChatContext) : str :=
  build_prompt (format_products_info products) (context_text context) user_message.

Definition generate_response (user_message : str) (products : list Product)
           (context : option ChatContext) : result str :=
  let body :=
    rbind (_generate_text (prompt_of user_message products context))
          (fun response => Ok (strip response)) in
  match body with
  | inr s => Ok s
  | inl e => Raise (ChatServiceError_new
                      (lit "Error al generar respuesta de Gemini: " ++ exn_str e))
  end.
End Service.
End GeminiService.

(* ================================================================== *)
(** * src/application/chat_service.py *)
(* ================================================================== *)

(** The two collaborators [ChatService] receives besides the chat
    repository.  [IProductRepository.get_all] is a read; the AI service
    is duck-typed, with the one method [generate_response]. *)
Class IProductRepository := { get_all : result (list Product) }.
Class AIService := {
  generate_response : str -> list Product -> ChatContext -> result str
}.

(** [GeminiService] as the AI service of a [ChatService]. *)
Definition gemini (format_2f : float -> str) (g : GeminiService.t) : AIService :=
  {| generate_response um ps ctx :=
       GeminiService.generate_response format_2f g um ps (Some ctx) |}.

Module ChatService.
Section Service.
Context {E : Engine} {product_repository : IProductRepository}
        {ai_service : AIService}.

Definition process_message (request : ChatMessageRequestDTO.t)
  : M ChatMessageResponseDTO.t :=
  let sid := ChatMessageRequestDTO.session_id request in
  let msg := ChatMessageRequestDTO.message request in
  try_except
    (products <- lift get_all ;;
     recent_history <- SQLChatRepository.get_recent_messages sid 6 ;;
     let context := ChatContext_new recent_history in
     ai_response <- lift (generate_response msg products context) ;;
     t_user <- now ;;
     user_msg <- lift (ChatMessage_new None sid (lit "user") msg t_user) ;;
     SQLChatRepository.save_message user_msg ;;;
     t_assistant <- now ;;
     assistant_msg <- lift (ChatMessage_new None sid (lit "assistant")
                                            ai_response t_assistant) ;;
     SQLChatRepository.save_message assistant_msg ;;;
     ret {| ChatMessageResponseDTO.session_id := sid;
            ChatMessageResponseDTO.user_message := msg;
            ChatMessageResponseDTO.assistant_message := ai_response;
            ChatMessageResponseDTO.timestamp := Entities.timestamp assistant_msg |})
    (fun e => raise (ChatServiceError_new (exn_str e))).

Definition get_session_history (session_id : str) (limit : option Z)
  : M (list ChatHistoryDTO.t) :=
  try_except
    (history <- SQLChatRepository.get_session_history session_id limit ;;
     lift (rmap ChatHistoryDTO.model_validate history))
    (fun e => raise (ChatServiceError_new
                       (lit "Error al obtener historial: " ++ exn_str e))).

Definition clear_session_history (session_id : str) : M Z :=
  try_except
    (deleted <- SQLChatRepository.delete_session_history session_id ;;
     ret deleted)
    (fun e => raise (ChatServiceError_new
                       (lit "Error al limpiar historial: " ++ exn_str e))).
End Service.
End ChatService.

(* ================================================================== *)
(** * Vocabulary of the statements *)
(* ================================================================== *)

(** A string is empty or made of whitespace only. *)
Definition empty_or_whitespace (s : str) : Prop :=
  s = [] \/ (s <> [] /\ Forall (fun c => isspace c = true) s).

(** The inputs a [ChatMessage] must refuse. *)
Definition invalid_turn (sid r msg : str) : Prop :=
  empty_or_whitespace sid \/ empty_or_whitespace msg \/
  ~ (r = lit "user" \/ r = lit "assistant").

Section Orders.
Variable A : Type.
Variable key : A -> Z.

(** Ascending by key. *)
Definition key_le (a b : A) : Prop := (key a <= key b)%Z.

(** The last [n] elements of a list, by position. *)
Definition trailing (n : nat) (l : list A) : list A := skipn (length l - n) l.

End Orders.

(** A persisted row converts back to this entity. *)
Definition entity_of_row (r : ChatMemoryModel) : ChatMessage :=
  {| Entities.id := Db.id r; Entities.session_id := Db.session_id r;
     Entities.role := Db.role r; Entities.message := Db.message r;
     Entities.timestamp := Db.timestamp r |}.

(** A row the entity validation accepts, and a table of such rows. *)
Definition row_valid (r : ChatMemoryModel) : Prop :=
  ~ invalid_turn (Db.session_id r) (Db.role r) (Db.message r).

Definition table_valid (t : table) : Prop := Forall row_valid t.

(** The row an insert of a new turn leaves in table [t]. *)
Definition stored_row (t : table) (sid r msg : str) (ts : Z) : ChatMemoryModel :=
  {| Db.id := Some (next_rowid t); Db.session_id := sid; Db.role := r;
     Db.message := msg; Db.timestamp := ts |}.

(** The two rows a completed request appends, the world it leaves and
    the response it returns, for a reply [reply]. *)
Definition user_row (w : World) (sid msg : str) : ChatMemoryModel :=
  stored_row (chat_memory w) sid (lit "user") msg (clock w (reads w)).

Definition assistant_row (w : World) (sid msg reply : str) : ChatMemoryModel :=
  stored_row (chat_memory w ++ [user_row w sid msg]) sid (lit "assistant") reply
             (clock w (S (reads w))).

Definition world_after_turn (w : World) (sid msg reply : str) : World :=
  let u := user_row w sid msg in
  let a := assistant_row w sid msg reply in
  {| chat_memory := chat_memory w ++ [u; a];
     journal := journal w ++ [chat_memory w ++ [u]; chat_memory w ++ [u; a]];
     clock := clock w; reads := S (S (reads w)) |}.

(** The world a request leaves when only its user turn was saved. *)
Definition world_after_user_turn (w : World) (sid msg : str) : World :=
  let u := user_row w sid msg in
  {| chat_memory := chat_memory w ++ [u];
     journal := journal w ++ [chat_memory w ++ [u]];
     clock := clock w; reads := S (S (reads w)) |}.

Definition response_of (w : World) (sid msg reply : str) : ChatMessageResponseDTO.t :=
  {| ChatMessageResponseDTO.session_id := sid;
     ChatMessageResponseDTO.user_message := msg;
     ChatMessageResponseDTO.assistant_message := reply;
     ChatMessageResponseDTO.timestamp := clock w (S (reads w)) |}.

(** Ascending in timestamp, for rows. *)
Definition asc_timestamp (a b : ChatMemoryModel) : Prop :=
  (Db.timestamp a <= Db.timestamp b)%Z.

(** The table of a world holds valid rows only. *)
Definition rows_valid (w : World) : Prop := table_valid (chat_memory w).

(** A computation that keeps a property of the world, however it ends. *)
Definition preserves {A} (P : World -> Prop) (c : M A) : Prop :=
  forall w r w', c w = (r, w') -> P w -> P w'.

(** The rows the repository reads as the [n] most recent of a session,
    oldest first. *)
Definition recent_rows {E : Engine} (sid : str) (n : Z) (t : table) : table :=
  rev (Db.limit n (order_by_desc_timestamp (filter_session sid t))).

(** The prompt a request sends to the model when the AI service is
    [GeminiService] and the catalog is [ps]. *)
Definition sent_prompt {E : Engine} (format_2f : float -> str)
           (request : ChatMessageRequestDTO.t) (ps : list Product) (w : World) : str :=
  GeminiService.prompt_of format_2f (ChatMessageRequestDTO.message request) ps
    (Some (ChatContext_new
             (List.map entity_of_row
                       (recent_rows (ChatMessageRequestDTO.session_id request) 6
                                    (chat_memory w))))).


(* ================================================================== *)
(** * Sample data *)
(* ================================================================== *)

Definition turn (sid r msg : string) (ts : Z) : ChatMessage :=
  {| Entities.id := None; Entities.session_id := lit sid; Entities.role := lit r;
     Entities.message := lit msg; Entities.timestamp := ts |}.

(** Three turns delivered out of order, two of them at the same instant. *)
Definition shuffled_turns : list ChatMessage :=
  [ turn "s1" "user" "old" 10; turn "s1" "assistant" "d" 40;
    turn "s1" "user" "b" 20; turn "s1" "assistant" "c" 20 ].

(** Three turns of one session, oldest first. *)
Definition three_turns : list ChatMessage :=
  [ turn "s1" "user" "a" 10; turn "s1" "assistant" "b" 20; turn "s1" "user" "c" 30 ].

(** Collaborators in the manner of the repository's test doubles. *)
Definition empty_catalog : IProductRepository := {| get_all := Ok [] |}.

(** A model whose call raises. *)
Definition failing_model : GeminiService.t :=
  {| GeminiService.generate_content_async _ :=
       Raise (Raised OtherError (lit "AI failure")) |}.

Definition fake_ai : AIService :=
  {| generate_response um _ _ := Ok (lit "Respuesta simulada a: " ++ um) |}.

Definition two_decimals_stub : float -> str := fun _ => lit "0.00".

(** A model that answers with the prompt it received. *)
Definition echo_model : GeminiService.t :=
  {| GeminiService.generate_content_async p :=
       Ok (Some {| GeminiService.text := Ok (Some p) |}) |}.


(** A model that reports success with three spaces. *)
Definition blank_model : GeminiService.t :=
  {| GeminiService.generate_content_async _ :=
       Ok (Some {| GeminiService.text := Ok (Some (lit "   ")) |}) |}.

Definition first_request : ChatMessageRequestDTO.t :=
  {| ChatMessageRequestDTO.session_id := lit "s1";
     ChatMessageRequestDTO.message := lit "Busco Nike" |}.

(** An empty table and a clock that advances by one at each reading. *)
Definition fresh_world : World :=
  {| chat_memory := []; journal := [];
     clock := fun n => (1000 + Z.of_nat n)%Z; reads := 0 |}.

(** A table holding three turns of session "s1" and one of "s2". *)
Definition row (i : Z) (sid r msg : string) (ts : Z) : ChatMemoryModel :=
  {| Db.id := Some i; Db.session_id := lit sid; Db.role := lit r;
     Db.message := lit msg; Db.timestamp := ts |}.

Definition busy_world : World :=
  {| chat_memory := [ row 1 "s1" "user" "a" 10; row 2 "s2" "user" "x" 15;
                      row 3 "s1" "assistant" "b" 20; row 4 "s1" "user" "c" 30 ];
     journal := [];
     clock := fun n => (1000 + Z.of_nat n)%Z; reads := 0 |}.

Definition history_entry (i : Z) (r msg : string) (ts : Z) : ChatHistoryDTO.t :=
  {| ChatHistoryDTO.id := i; ChatHistoryDTO.role := lit r;
     ChatHistoryDTO.message := lit msg; ChatHistoryDTO.timestamp := ts |}.


(** [r] is [s] without its leading and trailing whitespace: [s] is [r]
    between two runs of whitespace, and [r] neither starts nor ends with a
    whitespace character. *)
Definition trimmed_of (s r : str) : Prop :=
  (exists pre post,
      s = pre ++ r ++ post /\
      Forall (fun c => isspace c = true) pre /\
      Forall (fun c => isspace c = true) post) /\
  (forall c rest, r = c :: rest -> isspace c = false) /\
  (forall rest c, r = rest ++ [c] -> isspace c = false).



(* ================================================================== *)
(** * Vocabulary of the further statements *)
(* ================================================================== *)

(** Every row carries an id and no two rows share one. *)
Definition table_keyed (t : table) : Prop :=
  NoDup (List.map Db.id t) /\ Forall (fun r => Db.id r <> None) t.

Definition rows_keyed (w : World) : Prop := table_keyed (chat_memory w).


(** The prefix every [ChatServiceError] message starts with. *)
Definition chat_error_prefix : str := lit "Error en el servicio de chat".

(* ================================================================== *)
(** * src/domain/entities.py: Product *)
(* ================================================================== *)

Module ProductEntity.

(** [Product.__post_init__]: the three checks, in source order.  The
    comparison [self.price <= 0] is the IEEE one, false for a NaN. *)
Definition post_init (p : Product) : result unit :=
  if blank (name p) then
    Raise (Raised ValueError (lit "name no puede estar vac" ++ [237%N; 111%N]))
  else if PrimFloat.leb (price p) PrimFloat.zero then
    Raise (Raised ValueError (lit "price debe ser mayor a 0"))
  else if (stock p <? 0)%Z then
    Raise (Raised ValueError (lit "stock no puede ser negativo"))
  else Ok tt.

(** [Product(id=..., name=..., ...)]. *)
Definition Product_new (i : option Z) (n b c sz col : str) (pr : float)
           (st : Z) (d : str) : result Product :=
  let p := {| product_id := i; name := n; brand := b; category := c; size := sz;
              color := col; price := pr; stock := st; description := d |} in
  rbind (post_init p) (fun _ => Ok p).

Definition is_available (p : Product) : bool := (stock p >? 0)%Z.

(** [self.stock = s]: the product with its stock replaced. *)
Definition with_stock (p : Product) (s : Z) : Product :=
  {| product_id := product_id p; name := name p; brand := brand p;
     category := category p; size := size p; color := color p;
     price := price p; stock := s; description := description p |}.

(** [reduce_stock] and [increase_stock] change the product in place; the
    model returns the product as it is after the call. *)
Definition reduce_stock (p : Product) (quantity : Z) : result Product :=
  if (quantity <=? 0)%Z then
    Raise (Raised ValueError (lit "quantity debe ser positivo"))
  else if (quantity >? stock p)%Z then
    Raise (Raised ValueError (lit "No hay suficiente stock"))
  else Ok (with_stock p (stock p - quantity)).

Definition increase_stock (p : Product) (quantity : Z) : result Product :=
  if (quantity <=? 0)%Z then
    Raise (Raised ValueError (lit "quantity debe ser positivo"))
  else Ok (with_stock p (stock p + quantity)).

End ProductEntity.

(* ================================================================== *)
(** * src/application/dtos.py: ProductDTO *)
(* ================================================================== *)

Module ProductDTO.
Record t := {
  id : option Z;
  name : str;
  brand : str;
  category : str;
  size : str;
  color : str;
  price : float;
  stock : Z;
  description : str
}.

(** [@field_validator('price')]. *)
Definition price_must_be_positive (v : float) : result float :=
  if PrimFloat.leb v PrimFloat.zero
  then Raise (Raised ValueError (lit "El precio debe ser mayor a 0"))
  else Ok v.

(** [@field_validator('stock')]. *)
Definition stock_must_be_non_negative (v : Z) : result Z :=
  if (v <? 0)%Z
  then Raise (Raised ValueError (lit "El stock no puede ser negativo"))
  else Ok v.

(** [ProductDTO(...)]: pydantic runs the two field validators and raises
    its own error when one of them does. *)
Definition new (i : option Z) (n b c sz col : str) (pr : float) (st : Z) (d : str)
  : result t :=
  match price_must_be_positive pr, stock_must_be_non_negative st with
  | inr pr', inr st' =>
      Ok {| id := i; name := n; brand := b; category := c; size := sz;
            color := col; price := pr'; stock := st'; description := d |}
  | inl e, _ => Raise (Raised ValidationError (exn_str e))
  | _, inl e => Raise (Raised ValidationError (exn_str e))
  end.

(** [ProductDTO.model_validate(product)] with [from_attributes]. *)
Definition model_validate (p : Product) : result t :=
  new (product_id p) (Entities.name p) (Entities.brand p) (Entities.category p)
      (Entities.size p) (Entities.color p) (Entities.price p) (Entities.stock p)
      (Entities.description p).
End ProductDTO.

(* ================================================================== *)
(** * src/domain/exceptions.py: the product exceptions *)
(* ================================================================== *)

Module ProductExceptions.

(** What the product side raises: one of the two domain exceptions, with
    its message, or an exception of a library or builtin. *)
Inductive raised :=
| ProductNotFoundError (message : str)
| InvalidProductDataError (message : str)
| Library (e : exn).

(** [ProductNotFoundError(product_id)]. *)
Definition ProductNotFoundError_new (product_id : option Z) : raised :=
  match product_id with
  | Some i => ProductNotFoundError
                (lit "Producto con ID " ++ str_of_int i ++ lit " no encontrado")
  | None => ProductNotFoundError (lit "Producto no encontrado")
  end.

(** [InvalidProductDataError(message)]. *)
Definition InvalidProductDataError_new (message : str) : raised :=
  if truthy message
  then InvalidProductDataError
         (lit "Datos de producto inv" ++ [225%N] ++ lit "lidos: " ++ message)
  else InvalidProductDataError (lit "Datos de producto inv" ++ [225%N] ++ lit "lidos").

Definition presult (A : Type) := (raised + A)%type.

(** A call that raises only library exceptions, seen from the product side. *)
Definition of_result {A} (r : result A) : presult A :=
  match r with
  | inl e => inl (Library e)
  | inr a => inr a
  end.

End ProductExceptions.

Import ProductExceptions.

(* ================================================================== *)
(** * The parameters SQLite takes *)
(* ================================================================== *)

(** The values of a row reach SQLite as the parameters of a statement,
    bound one after the other; the first one SQLite cannot take raises in
    the driver, before anything is written. *)
Module Sqlite.

Definition is_surrogate (c : char) : bool := ((55296 <=? c) && (c <=? 57343))%N.

(** A text is sent as UTF-8, which has no encoding for a surrogate code
    point. *)
Definition encodable (s : str) : bool := forallb (fun c => negb (is_surrogate c)) s.

(** An INTEGER is a signed integer of 64 bits. *)
Definition int64 (n : Z) : bool := ((- 2 ^ 63 <=? n) && (n <? 2 ^ 63))%Z.

(** A digit in lower-case hexadecimal, and ["%04x" % c]. *)
Definition hex_digit (n : N) : char := (if n <? 10 then 48 + n else 87 + n)%N.

Definition hex4 (c : N) : str :=
  [ hex_digit ((c / 4096) mod 16); hex_digit ((c / 256) mod 16);
    hex_digit ((c / 16) mod 16); hex_digit (c mod 16) ]%N.

(** The position of the first surrogate of a text, and the length of the
    run of surrogates at the head of one. *)
Fixpoint first_surrogate (s : str) : nat :=
  match s with
  | [] => 0
  | c :: s' => if is_surrogate c then 0 else S (first_surrogate s')
  end.

Fixpoint surrogate_run (s : str) : nat :=
  match s with
  | [] => 0
  | c :: s' => if is_surrogate c then S (surrogate_run s') else 0
  end.

(** The UnicodeEncodeError (a ValueError) of a text that is not encodable:
    it names the first run of surrogates. *)
Definition UnicodeEncodeError (s : str) : exn :=
  let start := first_surrogate s in
  let run := surrogate_run (skipn start s) in
  Raised ValueError
    (if (run <=? 1)%nat
     then lit "'utf-8' codec can't encode character '\u" ++ hex4 (nth start s 0%N)
          ++ lit "' in position " ++ str_of_int (Z.of_nat start)
          ++ lit ": surrogates not allowed"
     else lit "'utf-8' codec can't encode characters in position "
          ++ str_of_int (Z.of_nat start) ++ lit "-"
          ++ str_of_int (Z.of_nat (start + run - 1))
          ++ lit ": surrogates not allowed").

(** The OverflowError of an integer beyond 64 bits. *)
Definition OverflowError : exn :=
  Raised OtherError (lit "Python int too large to convert to SQLite INTEGER").

Definition bind_text (s : str) : result unit :=
  if encodable s then Ok tt else Raise (UnicodeEncodeError s).

Definition bind_integer (n : Z) : result unit :=
  if int64 n then Ok tt else Raise OverflowError.

End Sqlite.

(* ================================================================== *)
(** * src/infrastructure/repositories/product_repository.py *)
(* ================================================================== *)

Module ProductDb.

(** [ProductModel] (src/infrastructure/db/models.py): a row of the table
    [products]; [id] is [None] until the row is inserted.  The column
    [price] keeps a number as it is (a NaN is not a number the engine
    keeps). *)
Record ProductModel := {
  id : option Z;
  name : str;
  brand : str;
  category : str;
  size : str;
  color : str;
  price : float;
  stock : Z;
  description : str
}.

(** The table, rows in insertion order. *)
Definition table := list ProductModel.

(** A computation over the table that may raise; what was committed
    before an exception stays committed. *)
Definition PM (A : Type) := table -> presult A * table.

Definition has_id (i : Z) (r : ProductModel) : bool :=
  match id r with Some j => Z.eqb j i | None => false end.

(** [.filter(ProductModel.id == product_id).first()]. *)
Definition first_by_id (i : Z) (t : table) : option ProductModel :=
  find (has_id i) t.

(** The key SQLite gives a row inserted without one. *)
Definition next_rowid (t : table) : Z :=
  (1 + fold_right (fun r acc => match id r with Some i => Z.max i acc | None => acc end) 0 t)%Z.

(** The table after the fields of the first row with id [i] were assigned. *)
Fixpoint assign_first (i : Z) (f : ProductModel -> ProductModel) (t : table) : table :=
  match t with
  | [] => []
  | r :: t' => if has_id i r then f r :: t' else r :: assign_first i f t'
  end.


(** The values of a row as the parameters of its INSERT or UPDATE, in the
    order of the columns (a price is a REAL and is always taken). *)
Definition bind_row (r : ProductModel) : result unit :=
  rbind (Sqlite.bind_text (name r)) (fun _ =>
  rbind (Sqlite.bind_text (brand r)) (fun _ =>
  rbind (Sqlite.bind_text (category r)) (fun _ =>
  rbind (Sqlite.bind_text (size r)) (fun _ =>
  rbind (Sqlite.bind_text (color r)) (fun _ =>
  rbind (Sqlite.bind_integer (stock r)) (fun _ =>
  Sqlite.bind_text (description r))))))).

End ProductDb.

Module SQLProductRepository.
Import ProductDb.

Definition _model_to_entity (model : ProductModel) : result Product :=
  ProductEntity.Product_new (id model) (name model) (brand model) (category model)
    (size model) (color model) (price model) (stock model) (description model).

Definition _entity_to_model (entity : Product) : ProductModel :=
  {| id := product_id entity; name := Entities.name entity;
     brand := Entities.brand entity; category := Entities.category entity;
     size := Entities.size entity; color := Entities.color entity;
     price := Entities.price entity; stock := Entities.stock entity;
     description := Entities.description entity |}.

Definition get_all : PM (list Product) :=
  fun t => (of_result (rmap _model_to_entity t), t).

Definition get_by_id (product_id : Z) : PM (option Product) :=
  fun t =>
    match first_by_id product_id t with
    | Some model =>
        (of_result (rbind (_model_to_entity model) (fun p => Ok (Some p))), t)
    | None => (inr None, t)
    end.

(** The assignments [model.name = product.name] ... of [save]. *)
Definition assign_fields (product : Product) (model : ProductModel) : ProductModel :=
  {| id := id model; name := Entities.name product;
     brand := Entities.brand product; category := Entities.category product;
     size := Entities.size product; color := Entities.color product;
     price := Entities.price product; stock := Entities.stock product;
     description := Entities.description product |}.

(** [save]: the query by id binds the id; [commit] sends the UPDATE or
    the INSERT, which binds the values of the row (an UPDATE leaves out a
    column whose value did not change, which is then a value the table
    already holds); when a value is refused the exception of the driver
    leaves [save] and the table is as it was. *)
Definition save (product : Product) : PM Product :=
  fun t =>
    match product_id product with
    | Some i =>
        match Sqlite.bind_integer i with
        | inl e => (inl (Library e), t)
        | inr _ =>
            match first_by_id i t with
            | None => (inl (ProductNotFoundError_new (Some i)), t)
            | Some model =>
                match bind_row (assign_fields product model) with
                | inl e => (inl (Library e), t)
                | inr _ =>
                    (of_result (_model_to_entity (assign_fields product model)),
                     assign_first i (assign_fields product) t)
                end
            end
        end
    | None =>
        let model := _entity_to_model product in
        match bind_row model with
        | inl e => (inl (Library e), t)
        | inr _ =>
            let stored := {| id := Some (next_rowid t); name := name model;
                             brand := brand model; category := category model;
                             size := size model; color := color model;
                             price := price model; stock := stock model;
                             description := description model |} in
            (of_result (_model_to_entity stored), t ++ [stored])
        end
    end.


End SQLProductRepository.

(* ================================================================== *)
(** * src/application/product_service.py *)
(* ================================================================== *)

Module ProductService.
Import ProductDb.

(** [d.get(key)] on a dict given as its items. *)
Fixpoint dict_get (key : str) (d : list (str * str)) : option str :=
  match d with
  | [] => None
  | (k, v) :: d' => if str_eqb k key then Some v else dict_get key d'
  end.

(** [x] is not [None] and is truthy. *)
Definition given (x : option str) : bool :=
  match x with Some s => truthy s | None => false end.

Definition get_all_products : PM (list ProductDTO.t) :=
  fun t =>
    match SQLProductRepository.get_all t with
    | (inl e, t') => (inl e, t')
    | (inr products, t') => (of_result (rmap ProductDTO.model_validate products), t')
    end.

Definition get_product_by_id (product_id : Z) : PM ProductDTO.t :=
  fun t =>
    match SQLProductRepository.get_by_id product_id t with
    | (inl e, t') => (inl e, t')
    | (inr None, t') => (inl (ProductNotFoundError_new (Some product_id)), t')
    | (inr (Some product), t') => (of_result (ProductDTO.model_validate product), t')
    end.

Section Search.
(** [str.lower], taken as given. *)
Variable lower : str -> str.

Definition search_products (filters : list (str * str)) : PM (list ProductDTO.t) :=
  fun t =>
    let brand := dict_get (lit "brand") filters in
    let category := dict_get (lit "category") filters in
    match SQLProductRepository.get_all t with
    | (inl e, t') => (inl e, t')
    | (inr products, t') =>
        let products :=
          match brand with
          | Some b =>
              if truthy b
              then filter (fun p => str_eqb (lower (Entities.brand p)) (lower b)) products
              else products
          | None => products
          end in
        let products :=
          match category with
          | Some c =>
              if truthy c
              then filter (fun p => str_eqb (lower (Entities.category p)) (lower c)) products
              else products
          | None => products
          end in
        (of_result (rmap ProductDTO.model_validate products), t')
    end.
End Search.

(** [Product(id=i, name=product_dto.name, ...)] inside
    [try: ... except ValueError as e: raise InvalidProductDataError(str(e))]. *)
Definition product_of_dto (i : option Z) (product_dto : ProductDTO.t) : presult Product :=
  match ProductEntity.Product_new i (ProductDTO.name product_dto)
          (ProductDTO.brand product_dto) (ProductDTO.category product_dto)
          (ProductDTO.size product_dto) (ProductDTO.color product_dto)
          (ProductDTO.price product_dto) (ProductDTO.stock product_dto)
          (ProductDTO.description product_dto) with
  | inr p => inr p
  | inl e =>
      match exn_cls e with
      | ValueError => inl (InvalidProductDataError_new (exn_str e))
      | _ => inl (Library e)
      end
  end.

Definition save_and_validate (product : Product) : PM ProductDTO.t :=
  fun t =>
    match SQLProductRepository.save product t with
    | (inl e, t') => (inl e, t')
    | (inr saved, t') => (of_result (ProductDTO.model_validate saved), t')
    end.

Definition create_product (product_dto : ProductDTO.t) : PM ProductDTO.t :=
  fun t =>
    match product_of_dto None product_dto with
    | inl e => (inl e, t)
    | inr product => save_and_validate product t
    end.

Definition update_product (product_id : Z) (product_dto : ProductDTO.t)
  : PM ProductDTO.t :=
  fun t =>
    match SQLProductRepository.get_by_id product_id t with
    | (inl e, t') => (inl e, t')
    | (inr None, t') => (inl (ProductNotFoundError_new (Some product_id)), t')
    | (inr (Some existing), t') =>
        match product_of_dto (Some product_id) product_dto with
        | inl e => (inl e, t')
        | inr updated => save_and_validate updated t'
        end
    end.


Definition get_available_products : PM (list ProductDTO.t) :=
  fun t =>
    match SQLProductRepository.get_all t with
    | (inl e, t') => (inl e, t')
    | (inr products, t') =>
        let available := filter ProductEntity.is_available products in
        (of_result (rmap ProductDTO.model_validate available), t')
    end.

End ProductService.

(* ================================================================== *)
(** * Vocabulary of the product statements *)
(* ================================================================== *)

(** [price <= 0] does not hold (true of every positive number, of
    infinity, and of a NaN). *)
Definition price_accepted (p : float) : Prop :=
  PrimFloat.leb p PrimFloat.zero = false.

(** The inputs a [Product] must refuse. *)
Definition invalid_product (n : str) (pr : float) (st : Z) : Prop :=
  empty_or_whitespace n \/ ~ price_accepted pr \/ (st < 0)%Z.

(** A row of [products] that the entity validation accepts and whose
    price is a number. *)
Definition product_row_ok (r : ProductDb.ProductModel) : Prop :=
  ~ invalid_product (ProductDb.name r) (ProductDb.price r) (ProductDb.stock r) /\
  PrimFloat.is_nan (ProductDb.price r) = false.

(** A table of such rows, each with an id of its own. *)
Definition products_ok (t : ProductDb.table) : Prop :=
  NoDup (List.map ProductDb.id t) /\
  Forall (fun r => ProductDb.id r <> None) t /\
  Forall product_row_ok t.

(** A DTO that passed its validators, with a price that is a number. *)
Definition dto_ok (d : ProductDTO.t) : Prop :=
  price_accepted (ProductDTO.price d) /\
  PrimFloat.is_nan (ProductDTO.price d) = false /\
  (0 <= ProductDTO.stock d)%Z.

(** The texts of a DTO are texts SQLite takes, and so is its stock. *)
Definition dto_text_ok (d : ProductDTO.t) : Prop :=
  Sqlite.encodable (ProductDTO.name d) = true /\
  Sqlite.encodable (ProductDTO.brand d) = true /\
  Sqlite.encodable (ProductDTO.category d) = true /\
  Sqlite.encodable (ProductDTO.size d) = true /\
  Sqlite.encodable (ProductDTO.color d) = true /\
  Sqlite.encodable (ProductDTO.description d) = true.

Definition dto_storable (d : ProductDTO.t) : Prop :=
  dto_text_ok d /\ Sqlite.int64 (ProductDTO.stock d) = true.

(** The DTO the service returns for a row, and the row that holds the
    data of a DTO under id [i]. *)
Definition dto_of_model (r : ProductDb.ProductModel) : ProductDTO.t :=
  {| ProductDTO.id := ProductDb.id r; ProductDTO.name := ProductDb.name r;
     ProductDTO.brand := ProductDb.brand r; ProductDTO.category := ProductDb.category r;
     ProductDTO.size := ProductDb.size r; ProductDTO.color := ProductDb.color r;
     ProductDTO.price := ProductDb.price r; ProductDTO.stock := ProductDb.stock r;
     ProductDTO.description := ProductDb.description r |}.

Definition model_of_dto (i : Z) (d : ProductDTO.t) : ProductDb.ProductModel :=
  {| ProductDb.id := Some i; ProductDb.name := ProductDTO.name d;
     ProductDb.brand := ProductDTO.brand d; ProductDb.category := ProductDTO.category d;
     ProductDb.size := ProductDTO.size d; ProductDb.color := ProductDTO.color d;
     ProductDb.price := ProductDTO.price d; ProductDb.stock := ProductDTO.stock d;
     ProductDb.description := ProductDTO.description d |}.

Definition entity_of_model (r : ProductDb.ProductModel) : Product :=
  {| product_id := ProductDb.id r; Entities.name := ProductDb.name r;
     Entities.brand := ProductDb.brand r; Entities.category := ProductDb.category r;
     Entities.size := ProductDb.size r; Entities.color := ProductDb.color r;
     Entities.price := ProductDb.price r; Entities.stock := ProductDb.stock r;
     Entities.description := ProductDb.description r |}.

(** The id [i] is the id of a row of the table. *)
Definition stored (i : Z) (t : ProductDb.table) : Prop :=
  In (Some i) (List.map ProductDb.id t).

(** Sample products, after the seed data of the repository. *)
Definition product_row (i : Z) (n b c : string) (pr : float) (st : Z)
  : ProductDb.ProductModel :=
  {| ProductDb.id := Some i; ProductDb.name := lit n; ProductDb.brand := lit b;
     ProductDb.category := lit c; ProductDb.size := lit "42";
     ProductDb.color := lit "Negro"; ProductDb.price := pr; ProductDb.stock := st;
     ProductDb.description := lit "d" |}.

Definition catalog : ProductDb.table :=
  [ product_row 1 "Nike Air Zoom Pegasus 39" "Nike" "Running" 120%float 15;
    product_row 2 "Adidas Ultraboost 22" "Adidas" "Running" 180%float 0;
    product_row 3 "Puma Smash V2" "Puma" "Casual" 70%float 20 ].

Definition new_product : ProductDTO.t :=
  {| ProductDTO.id := None; ProductDTO.name := lit "Nuevo"; ProductDTO.brand := lit "X";
     ProductDTO.category := lit "Run"; ProductDTO.size := lit "41";
     ProductDTO.color := lit "G"; ProductDTO.price := 60%float; ProductDTO.stock := 3;
     ProductDTO.description := lit "nuevo" |}.

(** The same product with a stock of 2^63, one more than SQLite holds. *)
Definition overstocked_product : ProductDTO.t :=
  {| ProductDTO.id := None; ProductDTO.name := lit "Nuevo"; ProductDTO.brand := lit "X";
     ProductDTO.category := lit "Run"; ProductDTO.size := lit "41";
     ProductDTO.color := lit "G"; ProductDTO.price := 60%float;
     ProductDTO.stock := 9223372036854775808;
     ProductDTO.description := lit "nuevo" |}.

Definition shoe : Product :=
  {| product_id := None; Entities.name := lit "Zapato"; Entities.brand := lit "M";
     Entities.category := lit "Casual"; Entities.size := lit "40";
     Entities.color := lit "Blanco"; Entities.price := 50%float; Entities.stock := 5;
     Entities.description := lit "d" |}.

(** ASCII lower-casing, to run [search_products] on the sample data. *)
Definition ascii_lower (s : str) : str :=
  List.map (fun c => if ((65 <=? c) && (c <=? 90))%N then (c + 32)%N else c) s.

(** A product field satisfies a filter value: no value or an empty one
    filters nothing, otherwise the two must agree once lower-cased. *)
Definition passes (lower : str -> str) (f : option str) (v : str) : Prop :=
  match f with
  | Some b => b <> [] -> lower v = lower b
  | None => True
  end.


(* ================================================================== *)
(** * Properties of the builtins *)
(* ================================================================== *)

Section StrFacts.

Lemma str_eqb_eq (a b : str) : str_eqb a b = true <-> a = b.
Proof.
  revert b; induction a as [|x a IH]; intros [|y b]; simpl; split;
    try congruence; try reflexivity.
  - intros H. apply andb_true_iff in H as [Hx Hab].
    apply N.eqb_eq in Hx. apply IH in Hab. congruence.
  - intros H. injection H as -> ->.
    apply andb_true_iff; split; [apply N.eqb_refl | now apply IH].
Qed.

Lemma str_eqb_neq (a b : str) : str_eqb a b = false <-> a <> b.
Proof.
  split.
  - intros H Heq. apply str_eqb_eq in Heq. congruence.
  - intros H. destruct (str_eqb a b) eqn:Hab; [|reflexivity].
    apply str_eqb_eq in Hab. contradiction.
Qed.

Lemma lstrip_nil_iff (s : str) : lstrip s = [] <-> forallb isspace s = true.
Proof.
  induction s as [|c s IH]; simpl; [tauto|].
  destruct (isspace c); simpl; [exact IH|].
  split; intros H; discriminate.
Qed.

Lemma forallb_rev {A} (p : A -> bool) (l : list A) :
  forallb p (rev l) = forallb p l.
Proof.
  induction l as [|x l IH]; simpl; [reflexivity|].
  rewrite forallb_app, IH. simpl. rewrite andb_true_r. apply andb_comm.
Qed.

Lemma lstrip_suffix (s : str) : exists pre, s = pre ++ lstrip s /\ forallb isspace pre = true.
Proof.
  induction s as [|c s [pre [Hs Hpre]]]; simpl.
  - exists []. now split.
  - destruct (isspace c) eqn:Hc.
    + exists (c :: pre). simpl. rewrite Hc, Hpre. split; [congruence | reflexivity].
    + exists []. now split.
Qed.

(** [s.strip()] is empty exactly when every character of [s] is a
    whitespace character (in particular when [s] is empty). *)
Lemma strip_nil_iff (s : str) : strip s = [] <-> forallb isspace s = true.
Proof.
  unfold strip, rstrip. split.
  - intros H.
    assert (Hr : lstrip (rev (lstrip s)) = []).
    { destruct (lstrip (rev (lstrip s))) as [|c r] eqn:Hl; [reflexivity|].
      simpl in H. destruct (rev r); discriminate. }
    apply lstrip_nil_iff in Hr. rewrite forallb_rev in Hr.
    destruct (lstrip_suffix s) as [pre [Hs Hpre]].
    rewrite Hs, forallb_app, Hpre, Hr. reflexivity.
  - intros H. apply lstrip_nil_iff in H. rewrite H. reflexivity.
Qed.

Lemma truthy_false_iff (s : str) : truthy s = false <-> s = [].
Proof. destruct s; simpl; split; congruence. Qed.

(** [not s or not s.strip()] holds exactly for the empty and the
    whitespace-only strings. *)
Lemma blank_iff (s : str) : blank s = true <-> forallb isspace s = true.
Proof.
  unfold blank. rewrite orb_true_iff, !negb_true_iff, !truthy_false_iff, strip_nil_iff.
  split; [intros [->|H]; [reflexivity | exact H] | auto].
Qed.

End StrFacts.

(* ================================================================== *)
(** * ChatMessage construction *)
(* ================================================================== *)

Lemma empty_or_whitespace_iff (s : str) :
  empty_or_whitespace s <-> blank s = true.
Proof.
  unfold empty_or_whitespace. rewrite blank_iff, forallb_forall, Forall_forall.
  split.
  - intros [->|[_ H]]; [intros x []| exact H].
  - intros H. destruct s as [|c s]; [now left|right]. split; [discriminate | exact H].
Qed.

Lemma role_check_iff (r : str) :
  negb (str_eqb r (lit "user") || str_eqb r (lit "assistant")) = true <->
  ~ (r = lit "user" \/ r = lit "assistant").
Proof.
  rewrite negb_true_iff, orb_false_iff, !str_eqb_neq. tauto.
Qed.

Lemma post_init_spec (m : ChatMessage) :
  (post_init m = Ok tt /\
   ~ invalid_turn (Entities.session_id m) (Entities.role m) (Entities.message m))
  \/ (exists s, post_init m = Raise (Raised ValueError s) /\
      invalid_turn (Entities.session_id m) (Entities.role m) (Entities.message m)).
Proof.
  unfold post_init, invalid_turn.
  destruct (blank (Entities.session_id m)) eqn:Hs.
  { right. eexists; split; [reflexivity|]. left. now apply empty_or_whitespace_iff. }
  destruct (blank (Entities.message m)) eqn:Hm.
  { right. eexists; split; [reflexivity|]. right; left. now apply empty_or_whitespace_iff. }
  destruct (negb _) eqn:Hr.
  { right. eexists; split; [reflexivity|]. right; right. now apply role_check_iff. }
  left. split; [reflexivity|].
  rewrite !empty_or_whitespace_iff, Hs, Hm, <- role_check_iff, Hr.
  intros [H|[H|H]]; discriminate.
Qed.

Lemma invalid_turn_dec (sid r msg : str) :
  invalid_turn sid r msg \/ ~ invalid_turn sid r msg.
Proof.
  destruct (post_init_spec {| Entities.id := None; Entities.session_id := sid;
                              Entities.role := r; Entities.message := msg;
                              Entities.timestamp := 0 |}) as [[_ Hv]|[s [_ Hi]]];
    [right | left]; assumption.
Qed.

Lemma ChatMessage_new_valid (i : option Z) (sid r msg : str) (ts : Z) :
  ~ invalid_turn sid r msg ->
  ChatMessage_new i sid r msg ts
  = Ok {| Entities.id := i; Entities.session_id := sid; Entities.role := r;
          Entities.message := msg; Entities.timestamp := ts |}.
Proof.
  intros Hv. unfold ChatMessage_new.
  destruct (post_init_spec {| Entities.id := i; Entities.session_id := sid;
                              Entities.role := r; Entities.message := msg;
                              Entities.timestamp := ts |}) as [[Hok _]|[s [_ Hi]]].
  - rewrite Hok. reflexivity.
  - contradiction.
Qed.

Lemma ChatMessage_new_invalid (i : option Z) (sid r msg : str) (ts : Z) :
  invalid_turn sid r msg ->
  exists s, ChatMessage_new i sid r msg ts = Raise (Raised ValueError s).
Proof.
  intros Hi. unfold ChatMessage_new.
  destruct (post_init_spec {| Entities.id := i; Entities.session_id := sid;
                              Entities.role := r; Entities.message := msg;
                              Entities.timestamp := ts |}) as [[_ Hv]|[s [Hr _]]].
  - contradiction.
  - exists s. rewrite Hr. reflexivity.
Qed.

(** [ChatMessage_new], when it succeeds, returns the record of its inputs. *)
Lemma ChatMessage_new_ok (i : option Z) (sid r msg : str) (ts : Z) (m : ChatMessage) :
  ChatMessage_new i sid r msg ts = Ok m ->
  m = {| Entities.id := i; Entities.session_id := sid; Entities.role := r;
         Entities.message := msg; Entities.timestamp := ts |}
  /\ ~ invalid_turn sid r msg.
Proof.
  intros H. assert (Hv : ~ invalid_turn sid r msg).
  { intros Hi. destruct (ChatMessage_new_invalid i ts Hi) as [s Hs].
    rewrite Hs in H. discriminate. }
  split; [|exact Hv].
  rewrite (ChatMessage_new_valid i ts Hv) in H. unfold Ok in H. congruence.
Qed.

(** C5.  Constructing a ChatMessage raises a [ValueError] exactly when the
    session id is empty or whitespace-only, or the text is, or the role is
    neither "user" nor "assistant"; otherwise it succeeds and the stored
    fields are the inputs. *)
Theorem chat_message_construction (i : option Z) (sid r msg : str) (ts : Z) :
  ((exists e, ChatMessage_new i sid r msg ts = Raise e /\ exn_cls e = ValueError)
   <-> invalid_turn sid r msg)
  /\
  (ChatMessage_new i sid r msg ts
   = Ok {| Entities.id := i; Entities.session_id := sid; Entities.role := r;
           Entities.message := msg; Entities.timestamp := ts |}
   <-> ~ invalid_turn sid r msg).
Proof.
  split; split.
  - intros [e [He Hc]].
    destruct (invalid_turn_dec sid r msg) as [Hi|Hv]; [exact Hi|].
    rewrite (ChatMessage_new_valid i ts Hv) in He. discriminate.
  - intros Hi. destruct (ChatMessage_new_invalid i ts Hi) as [s Hs].
    eexists. split; [exact Hs | reflexivity].
  - intros H. now apply ChatMessage_new_ok in H.
  - apply ChatMessage_new_valid.
Qed.

(* ================================================================== *)
(** * [sorted] and slices *)
(* ================================================================== *)

Section SortedFacts.
Variable A : Type.
Variable key : A -> Z.

Lemma insert_perm (x : A) (l : list A) : Permutation (x :: l) (insert key x l).
Proof.
  induction l as [|y l IH]; simpl; [reflexivity|].
  destruct (key y <? key x)%Z; [|reflexivity].
  rewrite perm_swap. now constructor.
Qed.

Lemma sorted_perm (l : list A) : Permutation l (sorted key l).
Proof.
  induction l as [|x l IH]; simpl; [constructor|].
  rewrite <- insert_perm. now constructor.
Qed.

Lemma sorted_length (l : list A) : length (sorted key l) = length l.
Proof. symmetry. apply Permutation_length, sorted_perm. Qed.

Lemma insert_hd (x : A) (l : list A) (a : A) :
  HdRel (key_le key) a l -> (key_le key) a x -> HdRel (key_le key) a (insert key x l).
Proof.
  intros Hl Hx. destruct l as [|y l]; simpl; [now constructor|].
  destruct (key y <? key x)%Z; constructor; [now inversion Hl | exact Hx].
Qed.

Lemma insert_Sorted (x : A) (l : list A) :
  Sorted (key_le key) l -> Sorted (key_le key) (insert key x l).
Proof.
  induction l as [|y l IH]; simpl; intros Hs.
  - repeat constructor.
  - inversion Hs as [|? ? Hs' Hhd]; subst.
    destruct (key y <? key x)%Z eqn:Hlt.
    + constructor; [now apply IH|].
      apply insert_hd; [exact Hhd|]. unfold key_le. lia.
    + constructor; [exact Hs|]. constructor. unfold key_le. lia.
Qed.

Lemma sorted_Sorted (l : list A) : Sorted (key_le key) (sorted key l).
Proof.
  induction l as [|x l IH]; simpl; [constructor | now apply insert_Sorted].
Qed.

(** Stability: among the elements with one given key, [sorted] keeps
    the order of the input. *)
Lemma insert_filter_key (k : Z) (x : A) (l : list A) :
  Sorted (key_le key) l ->
  filter (fun a => Z.eqb (key a) k) (insert key x l)
  = filter (fun a => Z.eqb (key a) k) (x :: l).
Proof.
  induction l as [|y l IH]; intros Hs; [reflexivity|].
  simpl insert. destruct (key y <? key x)%Z eqn:Hlt; [|reflexivity].
  inversion Hs as [|? ? Hs' Hhd]; subst.
  simpl filter at 1. rewrite (IH Hs'). simpl.
  destruct (Z.eqb_spec (key y) k), (Z.eqb_spec (key x) k); try reflexivity.
  lia.
Qed.

Lemma sorted_stable (k : Z) (l : list A) :
  filter (fun a => Z.eqb (key a) k) (sorted key l)
  = filter (fun a => Z.eqb (key a) k) l.
Proof.
  induction l as [|x l IH]; [reflexivity|].
  simpl sorted. rewrite insert_filter_key by apply sorted_Sorted.
  simpl. now rewrite IH.
Qed.

Lemma sorted_nil_iff (l : list A) : sorted key l = [] <-> l = [].
Proof.
  split; [|now intros ->].
  intros H. apply (f_equal (@length A)) in H. rewrite sorted_length in H.
  now destruct l.
Qed.

Lemma trailing_spec (n : nat) (l : list A) :
  l = firstn (length l - n) l ++ trailing n l /\
  length (trailing n l) = Nat.min (length l) n.
Proof.
  unfold trailing. split.
  - symmetry. apply firstn_skipn.
  - rewrite length_skipn. lia.
Qed.

(** [l[-n:]] for [n >= 1] is the last [n] elements. *)
Lemma slice_from_neg (n : Z) (l : list A) :
  (1 <= n)%Z -> slice_from (- n) l = trailing (Z.to_nat n) l.
Proof.
  intros Hn. unfold slice_from, trailing.
  destruct (Z.ltb_spec (- n) 0); [|lia].
  f_equal. lia.
Qed.

(** [l[-0:]] is [l[0:]], the whole list. *)
Lemma slice_from_zero (l : list A) : slice_from (- 0) l = l.
Proof.
  unfold slice_from. simpl.
  replace (Z.to_nat (Z.min 0 (Z.of_nat (length l)))) with 0%nat by lia.
  reflexivity.
Qed.

(** [l[k:]] for [k > 0] drops the first [k] elements. *)
Lemma slice_from_neg_bound (n : Z) (l : list A) :
  (n < 0)%Z -> slice_from (- n) l = skipn (Z.to_nat (- n)) l.
Proof.
  intros Hn. unfold slice_from.
  destruct (Z.ltb_spec (- n) 0); [lia|].
  destruct (Z.min_spec (- n) (Z.of_nat (length l))) as [[_ ->]|[Hle ->]]; [reflexivity|].
  rewrite Nat2Z.id, skipn_all. symmetry. apply skipn_all2. lia.
Qed.

End SortedFacts.

(* ================================================================== *)
(** * The recent window of a ChatContext *)
(* ================================================================== *)

(** [get_recent_messages] sorts the slice it took; the emptiness test of
    the source changes nothing. *)
Lemma get_recent_messages_eq (ctx : ChatContext) :
  get_recent_messages ctx
  = sorted Entities.timestamp (slice_from (- max_messages ctx) (messages ctx)).
Proof.
  unfold get_recent_messages.
  destruct (slice_from (- max_messages ctx) (messages ctx)); reflexivity.
Qed.

Lemma get_recent_messages_window (ctx : ChatContext) :
  (1 <= max_messages ctx)%Z ->
  get_recent_messages ctx
  = sorted Entities.timestamp (trailing (Z.to_nat (max_messages ctx)) (messages ctx)).
Proof.
  intros H. now rewrite get_recent_messages_eq, slice_from_neg.
Qed.

(** For a bound of at least 1 the window has [min(len, bound)] turns. *)
Lemma get_recent_messages_length (ctx : ChatContext) :
  (1 <= max_messages ctx)%Z ->
  Z.of_nat (length (get_recent_messages ctx))
  = Z.min (Z.of_nat (length (messages ctx))) (max_messages ctx).
Proof.
  intros H. rewrite get_recent_messages_window by exact H.
  rewrite sorted_length.
  destruct (trailing_spec (Z.to_nat (max_messages ctx)) (messages ctx)) as [_ ->].
  lia.
Qed.

(** C4.  For a bound of at least 1, [get_recent_messages] takes the
    trailing [max_messages] elements of the input by position and returns
    them re-sorted by timestamp: the result is a permutation of that slice,
    ascending in timestamp whatever the input order, with turns of equal
    timestamp in the order they had in the slice; an empty input gives an
    empty result. *)
Theorem recent_window_sorted_trailing_slice (ctx : ChatContext) :
  (1 <= max_messages ctx)%Z ->
  let n := Z.to_nat (max_messages ctx) in
  let slice := trailing n (messages ctx) in
  let out := get_recent_messages ctx in
  (exists older, messages ctx = older ++ slice /\
                 length slice = Nat.min (length (messages ctx)) n) /\
  Permutation slice out /\
  Sorted (fun a b => (Entities.timestamp a <= Entities.timestamp b)%Z) out /\
  (forall ts, filter (fun m => Z.eqb (Entities.timestamp m) ts) out
              = filter (fun m => Z.eqb (Entities.timestamp m) ts) slice) /\
  (messages ctx = [] -> out = []).
Proof.
  intros H n slice out. subst out.
  rewrite get_recent_messages_window by exact H. fold n. fold slice.
  repeat split.
  - destruct (trailing_spec n (messages ctx)) as [Hsplit Hlen].
    eexists. split; [exact Hsplit | exact Hlen].
  - apply sorted_perm.
  - apply sorted_Sorted.
  - intros ts. apply sorted_stable.
  - intros Hnil. subst slice. rewrite Hnil. reflexivity.
Qed.

Lemma recent_window_sorted_trailing_slice_witness :
  let ctx := {| messages := shuffled_turns; max_messages := 3 |} in
  get_recent_messages ctx
  = [ turn "s1" "user" "b" 20; turn "s1" "assistant" "c" 20;
      turn "s1" "assistant" "d" 40 ]
  /\ Permutation (trailing 3 shuffled_turns) (get_recent_messages ctx).
Proof.
  split; [reflexivity|].
  apply (recent_window_sorted_trailing_slice
           {| messages := shuffled_turns; max_messages := 3 |}).
  simpl. lia.
Defined.

(** With a bound of 0 the slice [messages[-0:]] is the whole list. *)
Lemma get_recent_messages_zero (msgs : list ChatMessage) :
  get_recent_messages {| messages := msgs; max_messages := 0 |}
  = sorted Entities.timestamp msgs.
Proof.
  rewrite get_recent_messages_eq. simpl max_messages.
  now rewrite slice_from_zero.
Qed.

(** With a negative bound [-k] the slice [messages[k:]] drops the first
    [k] turns and keeps the rest. *)
Lemma get_recent_messages_negative (msgs : list ChatMessage) (n : Z) :
  (n < 0)%Z ->
  get_recent_messages {| messages := msgs; max_messages := n |}
  = sorted Entities.timestamp (skipn (Z.to_nat (- n)) msgs).
Proof.
  intros H. rewrite get_recent_messages_eq. simpl max_messages.
  now rewrite slice_from_neg_bound.
Qed.

(** C3.  The window of a context with [max_messages = 0] is not empty: it
    holds every turn of the input (three turns here, and [len(T)] turns for
    every [T]); with [max_messages = -1] it holds all turns but the first. *)
Theorem recent_window_length_nonpositive_bound :
  (forall T, length (get_recent_messages {| messages := T; max_messages := 0 |})
             = length T) /\
  length (get_recent_messages {| messages := three_turns; max_messages := 0 |}) = 3 /\
  length (get_recent_messages {| messages := three_turns; max_messages := -1 |}) = 2.
Proof.
  split; [|split; reflexivity].
  intros T. rewrite get_recent_messages_zero. apply sorted_length.
Qed.

(* ================================================================== *)
(** * The rendered transcript *)
(* ================================================================== *)

(** One line of the transcript. *)
Lemma prompt_lines_eq (ctx : ChatContext) :
  prompt_lines ctx
  = List.map (fun msg => (if is_from_user msg then lit "Usuario" else lit "Asistente")
                           ++ lit ": " ++ Entities.message msg)
             (get_recent_messages ctx).
Proof. reflexivity. Qed.

(** For a bound of at least 1 the transcript is built from the window:
    at most [max_messages] entries, in ascending order of timestamp. *)
Lemma format_for_prompt_window (ctx : ChatContext) :
  (1 <= max_messages ctx)%Z ->
  format_for_prompt ctx = join [10%N] (prompt_lines ctx) /\
  (Z.of_nat (length (prompt_lines ctx)) <= max_messages ctx)%Z /\
  length (prompt_lines ctx) = length (get_recent_messages ctx) /\
  Sorted (fun a b => (Entities.timestamp a <= Entities.timestamp b)%Z)
         (get_recent_messages ctx).
Proof.
  intros H. split; [reflexivity|].
  assert (Hlen : length (prompt_lines ctx) = length (get_recent_messages ctx)).
  { unfold prompt_lines. apply length_map. }
  repeat split.
  - rewrite Hlen, get_recent_messages_length by exact H. lia.
  - exact Hlen.
  - rewrite get_recent_messages_eq. apply sorted_Sorted.
Qed.

(** C10.  A context with [max_messages = 0] over three turns renders a
    transcript of three lines, more than its bound. *)
Theorem transcript_exceeds_zero_bound :
  let ctx := {| messages := three_turns; max_messages := 0 |} in
  length (prompt_lines ctx) = 3 /\
  format_for_prompt ctx
  = lit "Usuario: a" ++ [10%N] ++ lit "Asistente: b" ++ [10%N] ++ lit "Usuario: c".
Proof. split; reflexivity. Qed.

(* ================================================================== *)
(** * Sequencing *)
(* ================================================================== *)

Section MonadFacts.
Variables A B : Type.

Lemma bind_ok (c : M A) (k : A -> M B) (w w1 : World) (a : A) :
  c w = (Ok a, w1) -> bind c k w = k a w1.
Proof. intros H. unfold bind. now rewrite H. Qed.

Lemma bind_raise (c : M A) (k : A -> M B) (w w1 : World) (e : exn) :
  c w = (Raise e, w1) -> bind c k w = (Raise e, w1).
Proof. intros H. unfold bind. now rewrite H. Qed.


Lemma lift_ok_inv (r : result A) (w w' : World) (a : A) :
  lift r w = (Ok a, w') -> r = Ok a /\ w' = w.
Proof. unfold lift. intros H. injection H as -> ->. split; reflexivity. Qed.

Lemma try_except_ok (c : M A) (h : exn -> M A) (w w' : World) (a : A) :
  c w = (Ok a, w') -> try_except c h w = (Ok a, w').
Proof. intros H. unfold try_except. now rewrite H. Qed.

Lemma try_except_raise (c : M A) (h : exn -> M A) (w w' : World) (e : exn) :
  c w = (Raise e, w') -> try_except c h w = h e w'.
Proof. intros H. unfold try_except. now rewrite H. Qed.


End MonadFacts.

(* ================================================================== *)
(** * The chat repository *)
(* ================================================================== *)

Lemma ChatServiceError_new_cls (s : str) : exn_cls (ChatServiceError_new s) = ChatServiceError.
Proof. unfold ChatServiceError_new. now destruct (truthy s). Qed.

Lemma model_to_entity_valid (r : ChatMemoryModel) :
  row_valid r -> SQLChatRepository._model_to_entity r = Ok (entity_of_row r).
Proof.
  intros H. unfold SQLChatRepository._model_to_entity.
  now apply ChatMessage_new_valid.
Qed.

Lemma rmap_valid (rows : table) :
  table_valid rows ->
  rmap SQLChatRepository._model_to_entity rows = Ok (List.map entity_of_row rows).
Proof.
  induction 1 as [|r rows Hr _ IH]; [reflexivity|].
  simpl. rewrite (model_to_entity_valid Hr). simpl. rewrite IH. reflexivity.
Qed.

Section RepositoryFacts.
Context {E : Engine}.

(** The reads of the repository leave the world as it is. *)
Lemma get_recent_messages_reads (sid : str) (n : Z) (w : World) :
  snd (SQLChatRepository.get_recent_messages sid n w) = w.
Proof. reflexivity. Qed.

Lemma get_session_history_reads (sid : str) (limit : option Z) (w : World) :
  snd (SQLChatRepository.get_session_history sid limit w) = w.
Proof. reflexivity. Qed.

(** Saving a turn without identity appends one row, in one commit. *)
Lemma save_message_new (m : ChatMessage) (w : World) :
  Entities.id m = None ->
  let row := stored_row (chat_memory w) (Entities.session_id m) (Entities.role m)
                        (Entities.message m) (Entities.timestamp m) in
  SQLChatRepository.save_message m w
  = (SQLChatRepository._model_to_entity row,
     {| chat_memory := chat_memory w ++ [row];
        journal := journal w ++ [chat_memory w ++ [row]];
        clock := clock w; reads := reads w |}).
Proof.
  intros Hid row.
  unfold SQLChatRepository.save_message, add_commit_refresh, bind, get_table,
    put_table, ret, lift, SQLChatRepository._entity_to_model.
  simpl. rewrite Hid. reflexivity.
Qed.

Lemma save_message_valid (sid r msg : str) (ts : Z) (w : World) :
  ~ invalid_turn sid r msg ->
  let row := stored_row (chat_memory w) sid r msg ts in
  SQLChatRepository.save_message
    {| Entities.id := None; Entities.session_id := sid; Entities.role := r;
       Entities.message := msg; Entities.timestamp := ts |} w
  = (Ok (entity_of_row row),
     {| chat_memory := chat_memory w ++ [row];
        journal := journal w ++ [chat_memory w ++ [row]];
        clock := clock w; reads := reads w |}).
Proof.
  intros Hv row. rewrite save_message_new by reflexivity.
  cbn [Entities.session_id Entities.role Entities.message Entities.timestamp].
  fold row. rewrite model_to_entity_valid; [reflexivity | exact Hv].
Qed.

End RepositoryFacts.

(* ================================================================== *)
(** * process_message *)
(* ================================================================== *)

Section ServiceFacts.
Context {E : Engine} {product_repository : IProductRepository} {ai_service : AIService}.

(** C1.  When the call to the AI service raises, [process_message] raises
    a [ChatServiceError] carrying the cause's message and the world is what
    it was: the table, hence the history of every session, is unchanged and
    nothing was committed. *)
Theorem generation_failure_persists_nothing
  (request : ChatMessageRequestDTO.t) (w : World) :
  (forall ps hist,
      get_all = Ok ps ->
      SQLChatRepository.get_recent_messages
        (ChatMessageRequestDTO.session_id request) 6 w = (Ok hist, w) ->
      exists cause,
        generate_response (ChatMessageRequestDTO.message request) ps
                          (ChatContext_new hist) = Raise cause) ->
  (exists cause,
      ChatService.process_message request w
      = (Raise (ChatServiceError_new (exn_str cause)), w)
      /\ exn_cls (ChatServiceError_new (exn_str cause)) = ChatServiceError)
  /\ (forall w', snd (ChatService.process_message request w) = w' ->
        chat_memory w' = chat_memory w /\ journal w' = journal w /\
        forall sid limit,
          fst (ChatService.get_session_history sid limit w')
          = fst (ChatService.get_session_history sid limit w)).
Proof.
  intros Hgen.
  assert (Hrun : exists cause,
             ChatService.process_message request w
             = (Raise (ChatServiceError_new (exn_str cause)), w)).
  { unfold ChatService.process_message, try_except, bind, lift, raise.
    destruct get_all as [e|ps] eqn:Hps.
    { exists e. reflexivity. }
    pose proof (get_recent_messages_reads (ChatMessageRequestDTO.session_id request) 6 w)
      as Hw.
    destruct (SQLChatRepository.get_recent_messages _ 6 w) as [[e|hist] w0] eqn:Hh;
      simpl in Hw; subst w0.
    { exists e. reflexivity. }
    destruct (Hgen ps hist eq_refl eq_refl) as [cause Hc].
    exists cause. rewrite Hc. reflexivity. }
  destruct Hrun as [cause Hrun]. split.
  - exists cause. split; [exact Hrun | apply ChatServiceError_new_cls].
  - intros w' Hw'. rewrite Hrun in Hw'. simpl in Hw'. subst w'.
    repeat split; reflexivity.
Qed.



End ServiceFacts.

Lemma generation_failure_persists_nothing_witness :
  exists cause,
    @ChatService.process_message stable_engine empty_catalog
       (gemini two_decimals_stub failing_model) first_request busy_world
    = (Raise (ChatServiceError_new (exn_str cause)), busy_world)
    /\ exn_cls (ChatServiceError_new (exn_str cause)) = ChatServiceError.
Proof.
  apply (@generation_failure_persists_nothing stable_engine empty_catalog
           (gemini two_decimals_stub failing_model) first_request busy_world).
  intros ps hist _ _. eexists. reflexivity.
Defined.



(* ================================================================== *)
(** * Reading the recent history *)
(* ================================================================== *)

Lemma Forall_firstn_of {A} (P : A -> Prop) (n : nat) (l : list A) :
  Forall P l -> Forall P (firstn n l).
Proof.
  intros H. rewrite <- (firstn_skipn n l) in H. now apply Forall_app in H.
Qed.

Lemma limit_valid (n : Z) (t : table) : table_valid t -> table_valid (Db.limit n t).
Proof.
  intros H. unfold Db.limit. destruct (n <? 0)%Z; [exact H|].
  now apply Forall_firstn_of.
Qed.

Lemma filter_session_valid (sid : str) (t : table) :
  table_valid t -> table_valid (filter_session sid t).
Proof.
  unfold table_valid, filter_session. rewrite !Forall_forall.
  intros H r Hr. apply H. now apply filter_In in Hr.
Qed.

Section EngineFacts.
Context {E : Engine}.
Hypothesis engine_lawful : engine_ok E.

Lemma order_by_valid (t : table) :
  table_valid t -> table_valid (order_by_desc_timestamp t).
Proof.
  intros H. unfold table_valid.
  now rewrite <- (proj1 engine_lawful t).
Qed.

Lemma order_by_nil : order_by_desc_timestamp [] = [].
Proof.
  apply Permutation_nil. apply (proj1 engine_lawful).
Qed.

Lemma recent_rows_valid (sid : str) (n : Z) (t : table) :
  table_valid t -> table_valid (recent_rows sid n t).
Proof.
  intros H. unfold recent_rows. apply Forall_rev, limit_valid, order_by_valid.
  now apply filter_session_valid.
Qed.

Lemma get_recent_messages_valid (sid : str) (n : Z) (w : World) :
  table_valid (chat_memory w) ->
  SQLChatRepository.get_recent_messages sid n w
  = (Ok (List.map entity_of_row (recent_rows sid n (chat_memory w))), w).
Proof.
  intros H. pose proof (rmap_valid (recent_rows_valid sid n H)) as Hr.
  unfold recent_rows in *.
  cbv beta iota zeta delta [SQLChatRepository.get_recent_messages bind get_table lift Ok].
  unfold Ok in Hr. rewrite Hr. reflexivity.
Qed.

End EngineFacts.

(* ================================================================== *)
(** * Running a request to its end *)
(* ================================================================== *)

Section RunFacts.
Context {E : Engine} {product_repository : IProductRepository} {ai_service : AIService}.
Variable request : ChatMessageRequestDTO.t.
Variable w : World.
Variables (ps : list Product) (hist : list ChatMessage) (reply : str).

Let sid := ChatMessageRequestDTO.session_id request.
Let msg := ChatMessageRequestDTO.message request.

Hypothesis catalog_read : get_all = Ok ps.
Hypothesis history_read :
  SQLChatRepository.get_recent_messages sid 6 w = (Ok hist, w).
Hypothesis generated :
  generate_response msg ps (ChatContext_new hist) = Ok reply.
Hypothesis user_turn_valid : ~ invalid_turn sid (lit "user") msg.

(** A reply the entity accepts: both turns are saved and the response
    is returned. *)
Lemma process_message_run :
  ~ invalid_turn sid (lit "assistant") reply ->
  ChatService.process_message request w
  = (Ok (response_of w sid msg reply), world_after_turn w sid msg reply).
Proof.
  intros Hreply. unfold ChatService.process_message. fold sid msg.
  apply try_except_ok.
  erewrite bind_ok by (unfold lift; rewrite catalog_read; reflexivity).
  erewrite bind_ok by exact history_read.
  erewrite bind_ok by (unfold lift; rewrite generated; reflexivity).
  erewrite bind_ok by reflexivity.
  erewrite bind_ok
    by (unfold lift; rewrite (ChatMessage_new_valid None _ user_turn_valid); reflexivity).
  erewrite bind_ok by (apply save_message_valid; exact user_turn_valid).
  erewrite bind_ok by reflexivity.
  erewrite bind_ok
    by (unfold lift; rewrite (ChatMessage_new_valid None _ Hreply); reflexivity).
  erewrite bind_ok by (apply save_message_valid; exact Hreply).
  unfold ret, world_after_turn, response_of, assistant_row, user_row.
  cbn [Entities.timestamp chat_memory journal clock reads].
  rewrite <- !app_assoc. reflexivity.
Qed.

(** A reply the entity refuses: the request fails after the user turn
    was saved. *)
Lemma process_message_reply_refused :
  invalid_turn sid (lit "assistant") reply ->
  exists s,
    ChatService.process_message request w
    = (Raise (ChatServiceError_new s), world_after_user_turn w sid msg).
Proof.
  intros Hreply.
  destruct (ChatMessage_new_invalid None (clock w (S (reads w))) Hreply) as [s Hs].
  exists s. unfold ChatService.process_message. fold sid msg.
  rewrite (@try_except_raise _ _ _ w (world_after_user_turn w sid msg)
                             (Raised ValueError s)); [reflexivity|].
  erewrite bind_ok by (unfold lift; rewrite catalog_read; reflexivity).
  erewrite bind_ok by exact history_read.
  erewrite bind_ok by (unfold lift; rewrite generated; reflexivity).
  erewrite bind_ok by reflexivity.
  erewrite bind_ok
    by (unfold lift; rewrite (ChatMessage_new_valid None _ user_turn_valid); reflexivity).
  erewrite bind_ok by (apply save_message_valid; exact user_turn_valid).
  erewrite bind_ok by reflexivity.
  apply bind_raise. unfold lift. cbn [chat_memory journal clock reads].
  rewrite Hs. reflexivity.
Qed.

End RunFacts.

(* ================================================================== *)
(** * Trimming *)
(* ================================================================== *)

Lemma lstrip_hd (s r : str) (c : char) : lstrip s = c :: r -> isspace c = false.
Proof.
  induction s as [|d s IH]; simpl; [discriminate|].
  destruct (isspace d) eqn:Hd; [exact IH|].
  intros H. injection H as <- _. exact Hd.
Qed.

Lemma lstrip_app_nonspace (l : str) (c : char) :
  isspace c = false -> lstrip (l ++ [c]) = lstrip l ++ [c].
Proof.
  intros Hc. induction l as [|d l IH]; simpl.
  - now rewrite Hc.
  - destruct (isspace d); [exact IH | reflexivity].
Qed.



(** ... and what is left neither starts nor ends with whitespace. *)
Lemma strip_ends (s : str) :
  (forall c r, strip s = c :: r -> isspace c = false) /\
  (forall r c, strip s = r ++ [c] -> isspace c = false).
Proof.
  unfold strip, rstrip. split.
  - intros c r H. destruct (lstrip s) as [|d x] eqn:Hx; [discriminate|].
    pose proof (lstrip_hd _ Hx) as Hd.
    simpl rev in H. rewrite (lstrip_app_nonspace (rev x) d Hd), rev_app_distr in H.
    simpl in H. injection H as <- _. exact Hd.
  - intros r c H. apply (f_equal (@rev char)) in H.
    rewrite rev_involutive, rev_app_distr in H. simpl in H.
    exact (lstrip_hd _ H).
Qed.

(* ================================================================== *)
(** * GeminiService *)
(* ================================================================== *)


(** A model call that raises makes [generate_response] raise a
    [ChatServiceError]. *)
Lemma generate_response_api_failure (format_2f : float -> str) (g : GeminiService.t)
      (um : str) (ps : list Product) (ctx : option ChatContext) (e : exn) :
  GeminiService.generate_content_async g (GeminiService.prompt_of format_2f um ps ctx)
  = Raise e ->
  exists s, GeminiService.generate_response format_2f g um ps ctx
            = Raise (ChatServiceError_new s).
Proof.
  intros H. unfold GeminiService.generate_response, GeminiService._generate_text.
  rewrite H. simpl. eexists. reflexivity.
Qed.


Lemma request_new_ok (sid msg : str) (request : ChatMessageRequestDTO.t) :
  ChatMessageRequestDTO.new sid msg = Ok request ->
  ChatMessageRequestDTO.session_id request = sid /\
  ChatMessageRequestDTO.message request = msg /\
  blank sid = false /\ blank msg = false.
Proof.
  unfold ChatMessageRequestDTO.new, ChatMessageRequestDTO.session_id_not_empty,
    ChatMessageRequestDTO.message_not_empty.
  destruct (blank sid), (blank msg); simpl; intros H; try discriminate.
  unfold Ok in H. injection H as <-. auto.
Qed.

Lemma user_turn_accepted (sid msg : str) :
  blank sid = false -> blank msg = false -> ~ invalid_turn sid (lit "user") msg.
Proof.
  intros Hs Hm [H|[H|H]].
  - apply empty_or_whitespace_iff in H. congruence.
  - apply empty_or_whitespace_iff in H. congruence.
  - apply H. now left.
Qed.


Lemma lstrip_app_space (pre x : str) :
  Forall (fun c => isspace c = true) pre -> lstrip (pre ++ x) = lstrip x.
Proof.
  induction 1 as [|c pre Hc _ IH]; simpl; [reflexivity|]. now rewrite Hc.
Qed.

(** There is one such text only: no other choice of what to take away at
    the two ends meets the description. *)
Lemma trimmed_of_unique (s r : str) : trimmed_of s r -> r = strip s.
Proof.
  intros [(pre & post & -> & Hpre & Hpost) [Hhd Hlast]].
  unfold strip. rewrite (lstrip_app_space _ Hpre).
  destruct r as [|c rest].
  - cbn [app].
    assert (Hp : lstrip post = []).
    { apply lstrip_nil_iff, forallb_forall. intros x Hx.
      exact (proj1 (Forall_forall _ _) Hpost x Hx). }
    now rewrite Hp.
  - cbn [app lstrip]. rewrite (Hhd c rest eq_refl).
    change (c :: rest ++ post) with ((c :: rest) ++ post).
    unfold rstrip. rewrite rev_app_distr.
    rewrite (lstrip_app_space _ (Forall_rev Hpost)).
    destruct (@exists_last _ (c :: rest)) as (r' & d & Hrd); [discriminate|].
    rewrite Hrd, rev_app_distr. cbn [rev app lstrip].
    rewrite (Hlast r' d Hrd). cbn [rev].
    now rewrite rev_involutive.
Qed.


Lemma Sorted_weaken {A} (R R' : A -> A -> Prop) (l : list A) :
  (forall a b, R a b -> R' a b) -> Sorted R l -> Sorted R' l.
Proof.
  intros HR. induction 1 as [|a l Hs IH Hhd]; constructor; [exact IH|].
  destruct Hhd; constructor. now apply HR.
Qed.

(** The engine that keeps ties in insertion order is a lawful engine. *)
Lemma stable_engine_ok : engine_ok stable_engine.
Proof.
  split; intros rows; simpl.
  - apply sorted_perm.
  - apply Sorted_weaken with (R := key_le (fun r => (- Db.timestamp r)%Z)).
    + unfold key_le, desc_timestamp. intros a b H. lia.
    + apply sorted_Sorted.
Qed.

(** A reply made of whitespace only is not replaced by the placeholder:
    it is stripped to the empty string, which the assistant turn refuses,
    so the request fails after the user turn was saved. *)
Lemma whitespace_reply_fails_after_user_turn :
  exists s,
    @ChatService.process_message stable_engine empty_catalog
       (gemini two_decimals_stub blank_model) first_request fresh_world
    = (Raise (ChatServiceError_new s),
       world_after_user_turn fresh_world (lit "s1") (lit "Busco Nike")).
Proof. eexists. reflexivity. Qed.

(* ================================================================== *)
(** * The prompt of a session without history *)
(* ================================================================== *)

(** C6.  For a session without prior turns the context is an empty
    [ChatContext], not [None]: its transcript is the empty string, the
    prior-conversation section of the prompt is empty, and the marker
    "No hay mensajes previos." is nowhere in the prompt the model receives. *)
Theorem empty_transcript_leaves_section_empty :
  let ctx := ChatContext_new [] in
  format_for_prompt ctx = [] /\
  (forall format_2f um ps,
      GeminiService.prompt_of format_2f um ps (Some ctx)
      = GeminiService.build_prompt
          (GeminiService.format_products_info format_2f ps) [] um) /\
  let prompt := @sent_prompt stable_engine two_decimals_stub first_request []
                             fresh_world in
  contains GeminiService.no_previous_messages prompt = false /\
  contains (GeminiService.conversation_header ++ GeminiService.newline
            ++ GeminiService.newline ++ lit "Usuario: Busco Nike") prompt = true /\
  fst (@ChatService.process_message stable_engine empty_catalog
         (gemini two_decimals_stub echo_model) first_request fresh_world)
  = Ok (response_of fresh_world (lit "s1") (lit "Busco Nike") (strip prompt)).
Proof.
  cbv zeta. split; [reflexivity|]. split; [reflexivity|].
  split; [vm_compute; reflexivity|]. split; vm_compute; reflexivity.
Qed.

(* ================================================================== *)
(** * Reading and clearing a session's history *)
(* ================================================================== *)

Section OrderFacts.
Variable A : Type.

Lemma StronglySorted_app_inv (R : A -> A -> Prop) (l1 l2 : list A) :
  StronglySorted R (l1 ++ l2) ->
  StronglySorted R l1 /\ StronglySorted R l2 /\
  (forall a b, In a l1 -> In b l2 -> R a b).
Proof.
  induction l1 as [|x l1 IH]; simpl; intros H.
  - repeat split; [constructor | exact H | intros a b []].
  - inversion H as [|? ? Hs Hall]; subst.
    destruct (IH Hs) as (H1 & H2 & H12).
    apply Forall_app in Hall as [Hall1 Hall2].
    repeat split; [now constructor | exact H2 |].
    intros a b [<-|Ha] Hb; [|now apply H12].
    rewrite Forall_forall in Hall2. now apply Hall2.
Qed.

Lemma StronglySorted_app (R : A -> A -> Prop) (l1 l2 : list A) :
  StronglySorted R l1 -> StronglySorted R l2 ->
  (forall a b, In a l1 -> In b l2 -> R a b) ->
  StronglySorted R (l1 ++ l2).
Proof.
  induction 1 as [|x l1 Hs IH Hall]; simpl; intros H2 H12; [exact H2|].
  constructor.
  - apply IH; [exact H2|]. intros a b Ha Hb. apply H12; [now right | exact Hb].
  - apply Forall_app. split; [exact Hall|].
    rewrite Forall_forall. intros b Hb. apply H12; [now left | exact Hb].
Qed.

Lemma StronglySorted_rev (R : A -> A -> Prop) (l : list A) :
  StronglySorted R l -> StronglySorted (fun a b => R b a) (rev l).
Proof.
  induction 1 as [|x l Hs IH Hall]; simpl; [constructor|].
  apply StronglySorted_app; [exact IH | repeat constructor |].
  intros a b Ha [<-|[]]. rewrite Forall_forall in Hall.
  apply Hall. now apply in_rev.
Qed.

End OrderFacts.

Lemma desc_timestamp_trans : Relations_1.Transitive desc_timestamp.
Proof. intros a b c. unfold desc_timestamp. lia. Qed.

Section HistoryFacts.
Context {E : Engine}.
Hypothesis engine_lawful : engine_ok E.

(** What [get_session_history] reads, for a bound that is given and
    not zero, and for no bound. *)
Lemma get_session_history_valid (sid : str) (limit : option Z) (w : World) :
  table_valid (chat_memory w) ->
  let q := order_by_desc_timestamp (filter_session sid (chat_memory w)) in
  let rows := match limit with
              | Some n => if Z.eqb n 0 then rev q else rev (Db.limit n q)
              | None => rev q
              end in
  SQLChatRepository.get_session_history sid limit w
  = (Ok (List.map entity_of_row rows), w).
Proof.
  intros Ht q rows.
  assert (Hq : table_valid q).
  { apply (order_by_valid engine_lawful). now apply filter_session_valid. }
  assert (Hrows : table_valid rows).
  { subst rows. destruct limit as [n|]; [destruct (Z.eqb n 0)|];
      apply Forall_rev; try exact Hq. now apply limit_valid. }
  pose proof (rmap_valid Hrows) as Hr.
  unfold SQLChatRepository.get_session_history.
  cbv beta iota zeta delta [bind get_table lift Ok]. fold q.
  unfold Ok in Hr. subst rows.
  destruct limit as [n|]; [destruct (Z.eqb n 0)|]; rewrite Hr; reflexivity.
Qed.

(** With a bound [n >= 1] the repository returns the [min(n, size)] most
    recent rows of the session, oldest first. *)
Lemma get_session_history_limited (sid : str) (n : Z) (w : World) :
  (1 <= n)%Z ->
  table_valid (chat_memory w) ->
  exists older rows,
    SQLChatRepository.get_session_history sid (Some n) w
    = (Ok (List.map entity_of_row rows), w) /\
    Permutation (filter_session sid (chat_memory w)) (older ++ rows) /\
    Z.of_nat (length rows)
    = Z.min n (Z.of_nat (length (filter_session sid (chat_memory w)))) /\
    StronglySorted asc_timestamp rows /\
    (forall o r, In o older -> In r rows -> asc_timestamp o r).
Proof.
  intros Hn Ht.
  set (q := order_by_desc_timestamp (filter_session sid (chat_memory w))).
  set (k := Z.to_nat n).
  exists (skipn k q), (rev (firstn k q)).
  pose proof (get_session_history_valid sid (Some n) w Ht) as Hget.
  cbv zeta in Hget. fold q in Hget.
  assert (Hz : (n =? 0)%Z = false) by lia.
  assert (Hlt : (n <? 0)%Z = false) by lia.
  unfold Db.limit in Hget. rewrite Hz, Hlt in Hget. fold k in Hget.
  assert (Hperm : Permutation (filter_session sid (chat_memory w)) q)
    by apply (proj1 engine_lawful).
  assert (Hsorted : StronglySorted desc_timestamp q).
  { apply Sorted_StronglySorted; [exact desc_timestamp_trans|].
    apply (proj2 engine_lawful). }
  rewrite <- (firstn_skipn k q) in Hsorted.
  apply StronglySorted_app_inv in Hsorted as (Hfirst & _ & Hcross).
  repeat split.
  - exact Hget.
  - rewrite Hperm. rewrite <- (firstn_skipn k q) at 1.
    rewrite Permutation_app_comm. apply Permutation_app_head, Permutation_rev.
  - rewrite length_rev, length_firstn, (Permutation_length Hperm). lia.
  - apply StronglySorted_rev in Hfirst. exact Hfirst.
  - intros o r Ho Hr. apply in_rev in Hr. unfold asc_timestamp.
    exact (Hcross r o Hr Ho).
Qed.


End HistoryFacts.

(** C8.  [get_session_history] with [limit = 0] takes the branch of no
    limit: it returns what the call without a limit returns, here the
    three turns of the session, not at most zero of them. *)
Theorem history_limit_zero_returns_all :
  (forall (E : Engine) sid w,
      @ChatService.get_session_history E sid (Some 0%Z) w
      = @ChatService.get_session_history E sid None w) /\
  fst (@ChatService.get_session_history stable_engine (lit "s1") (Some 0%Z) busy_world)
  = Ok [ history_entry 1 "user" "a" 10; history_entry 3 "assistant" "b" 20;
         history_entry 4 "user" "c" 30 ] /\
  fst (@ChatService.get_session_history stable_engine (lit "s1") (Some 2%Z) busy_world)
  = Ok [ history_entry 3 "assistant" "b" 20; history_entry 4 "user" "c" 30 ].
Proof.
  split; [reflexivity|]. split; vm_compute; reflexivity.
Qed.

Lemma filter_session_deleted (sid : str) (t : table) :
  filter_session sid (filter (fun r => negb (str_eqb (Db.session_id r) sid)) t) = [].
Proof.
  unfold filter_session. induction t as [|r t IH]; [reflexivity|].
  simpl. destruct (str_eqb (Db.session_id r) sid) eqn:Hr; simpl; [exact IH|].
  now rewrite Hr.
Qed.

Lemma filter_session_kept (sid other : str) (t : table) :
  other <> sid ->
  filter_session other (filter (fun r => negb (str_eqb (Db.session_id r) sid)) t)
  = filter_session other t.
Proof.
  intros Hne. unfold filter_session. induction t as [|r t IH]; [reflexivity|].
  simpl. destruct (str_eqb (Db.session_id r) sid) eqn:Hr; simpl.
  - apply str_eqb_eq in Hr.
    destruct (str_eqb (Db.session_id r) other) eqn:Ho; [|exact IH].
    apply str_eqb_eq in Ho. congruence.
  - now rewrite IH.
Qed.

Lemma filter_deleted_twice (sid : str) (t : table) :
  filter (fun r => negb (str_eqb (Db.session_id r) sid))
         (filter (fun r => negb (str_eqb (Db.session_id r) sid)) t)
  = filter (fun r => negb (str_eqb (Db.session_id r) sid)) t.
Proof.
  induction t as [|r t IH]; [reflexivity|].
  simpl. destruct (str_eqb (Db.session_id r) sid) eqn:Hr; simpl; [exact IH|].
  rewrite Hr. simpl. now rewrite IH.
Qed.

(** C9.  [clear_session_history] returns the number of rows of the
    session and removes them, leaving the other sessions as they were: the
    session then reads as empty, and clearing it again returns 0, raises
    nothing and leaves the table as it is. *)
Theorem clear_history_idempotent {E : Engine} (sid : str) (w : World) :
  engine_ok E ->
  exists w1 w2,
    ChatService.clear_session_history sid w
    = (Ok (Z.of_nat (length (filter_session sid (chat_memory w)))), w1) /\
    filter_session sid (chat_memory w1) = [] /\
    (forall other, other <> sid ->
       filter_session other (chat_memory w1) = filter_session other (chat_memory w)) /\
    ChatService.get_session_history sid None w1 = (Ok [], w1) /\
    ChatService.clear_session_history sid w1 = (Ok 0%Z, w2) /\
    chat_memory w2 = chat_memory w1.
Proof.
  intros HE.
  set (kept := filter (fun r => negb (str_eqb (Db.session_id r) sid)) (chat_memory w)).
  assert (Hgone : filter_session sid kept = []) by apply filter_session_deleted.
  assert (Hsame : filter (fun r => negb (str_eqb (Db.session_id r) sid)) kept = kept)
    by apply filter_deleted_twice.
  eexists. eexists.
  split; [reflexivity|]. cbn [chat_memory]. fold kept.
  split; [exact Hgone|].
  split; [intros other Hne; now apply filter_session_kept|].
  split.
  - unfold ChatService.get_session_history, SQLChatRepository.get_session_history.
    cbv beta iota zeta delta [try_except bind get_table lift Ok chat_memory].
    fold kept. rewrite Hgone, (order_by_nil HE). reflexivity.
  - unfold ChatService.clear_session_history,
      SQLChatRepository.delete_session_history.
    cbv beta iota zeta delta [try_except bind get_table put_table ret Ok chat_memory
                              journal clock reads].
    fold kept. rewrite Hgone, Hsame. split; reflexivity.
Qed.

Lemma clear_history_idempotent_witness :
  exists w1 w2,
    @ChatService.clear_session_history (lit "s1") busy_world = (Ok 3%Z, w1) /\
    filter_session (lit "s1") (chat_memory w1) = [] /\
    (forall other, other <> lit "s1" ->
       filter_session other (chat_memory w1)
       = filter_session other (chat_memory busy_world)) /\
    @ChatService.get_session_history stable_engine (lit "s1") None w1 = (Ok [], w1) /\
    @ChatService.clear_session_history (lit "s1") w1 = (Ok 0%Z, w2) /\
    chat_memory w2 = chat_memory w1.
Proof.
  exact (@clear_history_idempotent stable_engine (lit "s1") busy_world stable_engine_ok).
Defined.

(* ================================================================== *)
(** * The rows of the table stay valid *)
(* ================================================================== *)

Section Invariants.
Variable P : World -> Prop.

Lemma preserves_ret (A : Type) (a : A) : preserves P (ret a).
Proof. intros w r w' H Hw. unfold ret in H. now injection H as _ <-. Qed.

Lemma preserves_raise (A : Type) (e : exn) : preserves P (@raise A e).
Proof. intros w r w' H Hw. unfold raise in H. now injection H as _ <-. Qed.

Lemma preserves_lift (A : Type) (r : result A) : preserves P (lift r).
Proof. intros w r' w' H Hw. unfold lift in H. now injection H as _ <-. Qed.

(** The continuation only has to keep [P] for the values the first
    computation can return. *)
Lemma preserves_bind (A B : Type) (c : M A) (k : A -> M B) :
  preserves P c ->
  (forall a, (exists w w', c w = (Ok a, w')) -> preserves P (k a)) ->
  preserves P (bind c k).
Proof.
  intros Hc Hk w r w' H Hw. unfold bind in H.
  destruct (c w) as [[e|a] w1] eqn:Hcw.
  - injection H as _ <-. exact (Hc _ _ _ Hcw Hw).
  - apply (Hk a (ex_intro _ w (ex_intro _ w1 Hcw)) w1 r w' H).
    exact (Hc _ _ _ Hcw Hw).
Qed.

Lemma preserves_try_except (A : Type) (c : M A) (h : exn -> M A) :
  preserves P c -> (forall e, preserves P (h e)) -> preserves P (try_except c h).
Proof.
  intros Hc Hh w r w' H Hw. unfold try_except in H.
  destruct (c w) as [[e|a] w1] eqn:Hcw.
  - exact (Hh e w1 r w' H (Hc _ _ _ Hcw Hw)).
  - injection H as _ <-. exact (Hc _ _ _ Hcw Hw).
Qed.

End Invariants.

Lemma now_keeps_rows : preserves rows_valid now.
Proof. intros w r w' H Hw. unfold now in H. now injection H as _ <-. Qed.

Lemma save_message_keeps_rows {E : Engine} (m : ChatMessage) :
  ~ invalid_turn (Entities.session_id m) (Entities.role m) (Entities.message m) ->
  preserves rows_valid (SQLChatRepository.save_message m).
Proof.
  intros Hm w r w' H Hw.
  unfold SQLChatRepository.save_message, add_commit_refresh in H.
  cbv beta iota zeta delta [bind get_table put_table ret raise lift Ok Raise
                            SQLChatRepository._entity_to_model Db.id] in H.
  unfold rows_valid, table_valid in *.
  destruct (Entities.id m) as [i|].
  - destruct (has_rowid i (chat_memory w)).
    + now injection H as _ <-.
    + injection H as _ <-. cbn [chat_memory]. apply Forall_app. split; [exact Hw|].
      constructor; [exact Hm | constructor].
  - injection H as _ <-. cbn [chat_memory]. apply Forall_app. split; [exact Hw|].
    constructor; [exact Hm | constructor].
Qed.

(** Whatever its outcome, a request leaves a table of valid rows valid:
    the rows it inserts passed the entity validation. *)
Lemma process_message_keeps_rows
  {E : Engine} {product_repository : IProductRepository} {ai_service : AIService}
  (request : ChatMessageRequestDTO.t) :
  preserves rows_valid (ChatService.process_message request).
Proof.
  unfold ChatService.process_message.
  apply preserves_try_except; [|intros e; apply preserves_raise].
  apply preserves_bind; [apply preserves_lift|]. intros ps _.
  apply preserves_bind.
  { intros w r w' H Hw. pose proof (get_recent_messages_reads
      (ChatMessageRequestDTO.session_id request) 6 w) as Hsame.
    rewrite H in Hsame. simpl in Hsame. now subst w'. }
  intros hist _.
  apply preserves_bind; [apply preserves_lift|]. intros ai _.
  apply preserves_bind; [apply now_keeps_rows|]. intros tu _.
  apply preserves_bind; [apply preserves_lift|]. intros um (w0 & w1 & Hum).
  apply lift_ok_inv in Hum as [Hum _].
  destruct (@ChatMessage_new_ok _ _ _ _ _ _ Hum) as [-> Hvu].
  apply preserves_bind; [now apply save_message_keeps_rows|]. intros _ _.
  apply preserves_bind; [apply now_keeps_rows|]. intros ta _.
  apply preserves_bind; [apply preserves_lift|]. intros am (w2 & w3 & Ham).
  apply lift_ok_inv in Ham as [Ham _].
  destruct (@ChatMessage_new_ok _ _ _ _ _ _ Ham) as [-> Hva].
  apply preserves_bind; [now apply save_message_keeps_rows|]. intros _ _.
  apply preserves_ret.
Qed.

Lemma clear_session_history_keeps_rows (sid : str) :
  preserves rows_valid (ChatService.clear_session_history sid).
Proof.
  intros w r w' H Hw.
  unfold ChatService.clear_session_history, SQLChatRepository.delete_session_history,
    try_except, bind, get_table, put_table, ret in H.
  cbn in H. injection H as _ <-. unfold rows_valid, table_valid in *.
  cbn [chat_memory]. rewrite Forall_forall in *. intros x Hx.
  apply filter_In in Hx. now apply Hw.
Qed.

(** A row is valid when the entity validation accepts it. *)
Lemma row_valid_check (r : ChatMemoryModel) :
  post_init (entity_of_row r) = Ok tt -> row_valid r.
Proof.
  intros H. destruct (post_init_spec (entity_of_row r)) as [[_ Hv]|[s [Hr _]]].
  - exact Hv.
  - rewrite Hr in H. discriminate.
Qed.

Lemma busy_world_valid : table_valid (chat_memory busy_world).
Proof. repeat constructor; apply row_valid_check; reflexivity. Qed.


(* ================================================================== *)
(** * Further properties of the entities *)
(* ================================================================== *)

(** X1.  A ChatMessage that passed its construction is from the user or
    from the assistant, never both and never neither: [is_from_assistant]
    is the negation of [is_from_user]. *)
Theorem constructed_message_has_one_author
  (i : option Z) (sid r msg : str) (ts : Z) (m : ChatMessage) :
  ChatMessage_new i sid r msg ts = Ok m ->
  is_from_assistant m = negb (is_from_user m) /\
  (is_from_user m = true <-> r = lit "user") /\
  (is_from_assistant m = true <-> r = lit "assistant").
Proof.
  intros H. destruct (@ChatMessage_new_ok _ _ _ _ _ _ H) as [-> Hv].
  unfold is_from_user, is_from_assistant. cbn [Entities.role].
  assert (Hr : r = lit "user" \/ r = lit "assistant").
  { destruct (str_eqb r (lit "user")) eqn:Hu; [left; now apply str_eqb_eq|].
    destruct (str_eqb r (lit "assistant")) eqn:Ha; [right; now apply str_eqb_eq|].
    exfalso. apply Hv. right. right. intros [Hx|Hx]; apply str_eqb_eq in Hx; congruence. }
  rewrite !str_eqb_eq. split; [|tauto].
  destruct Hr as [-> | ->]; reflexivity.
Qed.

Lemma constructed_message_has_one_author_witness :
  exists m, ChatMessage_new None (lit "s1") (lit "assistant") (lit "Hola") 5 = Ok m /\
            is_from_assistant m = negb (is_from_user m).
Proof.
  eexists. split; [reflexivity|].
  exact (proj1 (@constructed_message_has_one_author None (lit "s1") (lit "assistant")
                  (lit "Hola") 5 _ eq_refl)).
Defined.

(** X2.  The request DTO and the entity agree on what a user turn may be:
    [ChatMessageRequestDTO] accepts a session id and a text exactly when
    the user [ChatMessage] built from them is accepted, and it hands both
    strings over unchanged. *)
Theorem request_validation_matches_user_turn (sid msg : str) (ts : Z) :
  (ChatMessageRequestDTO.new sid msg
   = Ok {| ChatMessageRequestDTO.session_id := sid;
           ChatMessageRequestDTO.message := msg |}
   <-> exists m, ChatMessage_new None sid (lit "user") msg ts = Ok m)
  /\
  ((exists e, ChatMessageRequestDTO.new sid msg = Raise e /\
              exn_cls e = ValidationError)
   <-> exists e, ChatMessage_new None sid (lit "user") msg ts = Raise e).
Proof.
  assert (Hinv : invalid_turn sid (lit "user") msg
                 <-> blank sid = true \/ blank msg = true).
  { unfold invalid_turn. rewrite !empty_or_whitespace_iff. split.
    - intros [H|[H|H]]; [now left | now right | exfalso; apply H; now left].
    - intros [H|H]; [now left | right; now left]. }
  unfold ChatMessageRequestDTO.new, ChatMessageRequestDTO.session_id_not_empty,
    ChatMessageRequestDTO.message_not_empty.
  destruct (blank sid) eqn:Hs, (blank msg) eqn:Hm; cbn [Raise Ok exn_str].
  1-3: assert (Hi : invalid_turn sid (lit "user") msg) by (apply Hinv; auto);
       destruct (ChatMessage_new_invalid None ts Hi) as [s Hnew]; rewrite Hnew;
       (split; split;
        [ discriminate
        | intros [m Hm']; discriminate
        | intros _; eexists; reflexivity
        | intros _; eexists; split; reflexivity ]).
  assert (Hv : ~ invalid_turn sid (lit "user") msg).
  { intros Hi. apply Hinv in Hi as [Hi|Hi]; discriminate. }
  rewrite (ChatMessage_new_valid None ts Hv). split; split.
  - intros _. eexists. reflexivity.
  - reflexivity.
  - intros [e [He _]]. discriminate.
  - intros [e He]. discriminate.
Qed.

Lemma join_nil_iff (sep : str) (parts : list str) :
  Forall (fun p => p <> []) parts -> (join sep parts = [] <-> parts = []).
Proof.
  intros H. split; [|now intros ->].
  destruct H as [|p rest Hp _]; [reflexivity|].
  simpl. destruct rest; intros Hj.
  - contradiction.
  - destruct p; [contradiction | discriminate].
Qed.

(** X3.  The rendered transcript is the empty string exactly when the
    recent window holds no message: every message of the window yields a
    line that starts with its label. *)
Theorem transcript_empty_iff_no_recent_message (ctx : ChatContext) :
  format_for_prompt ctx = [] <-> get_recent_messages ctx = [].
Proof.
  unfold format_for_prompt. rewrite join_nil_iff.
  - unfold prompt_lines. split.
    + intros H. now apply map_eq_nil in H.
    + intros ->. reflexivity.
  - unfold prompt_lines. apply Forall_forall. intros p Hp.
    apply in_map_iff in Hp as [m [<- _]].
    destruct (is_from_user m); discriminate.
Qed.

(** A list already ascending by key is left as it is by [sorted]. *)
Lemma sorted_of_Sorted {A} (key : A -> Z) (l : list A) :
  Sorted (key_le key) l -> sorted key l = l.
Proof.
  induction 1 as [|x l Hs IH Hhd]; [reflexivity|].
  simpl. rewrite IH. destruct Hhd as [|y l' Hxy]; [reflexivity|].
  simpl. unfold key_le in Hxy.
  destruct (Z.ltb_spec (key y) (key x)); [lia | reflexivity].
Qed.

(** A context whose messages are ascending in timestamp and no more than
    its bound returns them as they are. *)
Lemma get_recent_messages_fixed (ctx : ChatContext) :
  (1 <= max_messages ctx)%Z ->
  (Z.of_nat (length (messages ctx)) <= max_messages ctx)%Z ->
  Sorted (key_le Entities.timestamp) (messages ctx) ->
  get_recent_messages ctx = messages ctx.
Proof.
  intros Hmax Hlen Hs. rewrite get_recent_messages_window by exact Hmax.
  unfold trailing.
  replace (length (messages ctx) - Z.to_nat (max_messages ctx))%nat with 0%nat by lia.
  simpl. now apply sorted_of_Sorted.
Qed.

(** X4.  Taking the recent window is idempotent for a bound of at least 1:
    a context built from a window, with the same bound, gives that window
    back. *)
Theorem recent_window_idempotent (ctx : ChatContext) :
  (1 <= max_messages ctx)%Z ->
  get_recent_messages {| messages := get_recent_messages ctx;
                         max_messages := max_messages ctx |}
  = get_recent_messages ctx.
Proof.
  intros Hmax. apply get_recent_messages_fixed; cbn [messages max_messages].
  - exact Hmax.
  - rewrite get_recent_messages_length by exact Hmax. lia.
  - rewrite get_recent_messages_eq. apply sorted_Sorted.
Qed.

Lemma recent_window_idempotent_witness :
  let ctx := {| messages := shuffled_turns; max_messages := 3 |} in
  (1 <= max_messages ctx)%Z /\
  get_recent_messages {| messages := get_recent_messages ctx; max_messages := 3 |}
  = get_recent_messages ctx.
Proof.
  cbv zeta. split; [cbn; lia|].
  apply (recent_window_idempotent {| messages := shuffled_turns; max_messages := 3 |}).
  cbn. lia.
Defined.

(* ================================================================== *)
(** * Further properties of the chat repository *)
(* ================================================================== *)

Lemma rmap_entities_inv (rows : table) (ms : list ChatMessage) :
  rmap SQLChatRepository._model_to_entity rows = Ok ms ->
  ms = List.map entity_of_row rows /\ table_valid rows.
Proof.
  revert ms. induction rows as [|r rows IH]; simpl; intros ms H.
  - unfold Ok in H. injection H as <-. split; [reflexivity | constructor].
  - unfold SQLChatRepository._model_to_entity in H at 1.
    destruct (ChatMessage_new (Db.id r) (Db.session_id r) (Db.role r)
                              (Db.message r) (Db.timestamp r)) as [e|m] eqn:Hm;
      [discriminate|].
    destruct (@ChatMessage_new_ok _ _ _ _ _ _ Hm) as [-> Hv].
    simpl in H.
    destruct (rmap SQLChatRepository._model_to_entity rows) as [e|ms'] eqn:Hms;
      [discriminate|].
    destruct (IH ms' eq_refl) as [-> Hrows].
    simpl in H. unfold Ok in H. injection H as <-.
    split; [reflexivity | now constructor].
Qed.

Lemma Sorted_map_key {A B} (f : A -> B) (R : B -> B -> Prop) (l : list A) :
  Sorted (fun a b => R (f a) (f b)) l -> Sorted R (List.map f l).
Proof.
  induction 1 as [|x l Hs IH Hhd]; simpl; constructor; [exact IH|].
  destruct Hhd; simpl; constructor. assumption.
Qed.

Section RecentFacts.
Context {E : Engine}.
Hypothesis engine_lawful : engine_ok E.

(** The rows read as the [n] most recent, for a bound that is not negative. *)
Lemma recent_rows_latest (sid : str) (n : Z) (t : table) :
  (0 <= n)%Z ->
  exists older,
    Permutation (filter_session sid t) (older ++ recent_rows sid n t) /\
    Z.of_nat (length (recent_rows sid n t))
    = Z.min n (Z.of_nat (length (filter_session sid t))) /\
    StronglySorted asc_timestamp (recent_rows sid n t) /\
    (forall o r, In o older -> In r (recent_rows sid n t) -> asc_timestamp o r).
Proof.
  intros Hn. unfold recent_rows, Db.limit.
  set (q := order_by_desc_timestamp (filter_session sid t)).
  set (k := Z.to_nat n).
  assert (Hlt : (n <? 0)%Z = false) by lia. rewrite Hlt.
  exists (skipn k q).
  assert (Hperm : Permutation (filter_session sid t) q)
    by apply (proj1 engine_lawful).
  assert (Hsorted : StronglySorted desc_timestamp q).
  { apply Sorted_StronglySorted; [exact desc_timestamp_trans|].
    apply (proj2 engine_lawful). }
  rewrite <- (firstn_skipn k q) in Hsorted.
  apply StronglySorted_app_inv in Hsorted as (Hfirst & _ & Hcross).
  repeat split.
  - rewrite Hperm. rewrite <- (firstn_skipn k q) at 1.
    rewrite Permutation_app_comm. apply Permutation_app_head, Permutation_rev.
  - rewrite length_rev, length_firstn, (Permutation_length Hperm). lia.
  - apply StronglySorted_rev in Hfirst. exact Hfirst.
  - intros o r Ho Hr. apply in_rev in Hr. unfold asc_timestamp.
    exact (Hcross r o Hr Ho).
Qed.


(** X6.  The history [process_message] fetches (the six most recent
    turns) passes through the context window unchanged: what the
    repository returns is already within the default bound and ascending
    in timestamp, so the re-sort of [ChatContext] moves nothing. *)
Theorem fetched_history_passes_window_unchanged
  (sid : str) (w : World) (hist : list ChatMessage) :
  SQLChatRepository.get_recent_messages sid 6 w = (Ok hist, w) ->
  get_recent_messages (ChatContext_new hist) = hist.
Proof.
  intros Hget.
  unfold SQLChatRepository.get_recent_messages in Hget.
  cbv beta iota zeta delta [bind get_table lift Ok] in Hget.
  fold (recent_rows sid 6 (chat_memory w)) in Hget.
  assert (Hr : rmap SQLChatRepository._model_to_entity (recent_rows sid 6 (chat_memory w))
               = Ok hist).
  { unfold Ok. now injection Hget as ->. }
  apply rmap_entities_inv in Hr as [-> _].
  assert (H6 : (0 <= 6)%Z) by lia.
  destruct (recent_rows_latest sid (chat_memory w) H6) as (older & _ & Hlen & Hs & _).
  apply get_recent_messages_fixed; cbn [messages max_messages ChatContext_new].
  - lia.
  - rewrite length_map. lia.
  - apply Sorted_map_key. apply StronglySorted_Sorted in Hs. exact Hs.
Qed.

End RecentFacts.


Lemma fetched_history_passes_window_unchanged_witness :
  let hist := [ entity_of_row (row 1 "s1" "user" "a" 10);
                entity_of_row (row 3 "s1" "assistant" "b" 20);
                entity_of_row (row 4 "s1" "user" "c" 30) ] in
  @SQLChatRepository.get_recent_messages stable_engine (lit "s1") 6 busy_world
  = (Ok hist, busy_world) /\
  get_recent_messages (ChatContext_new hist) = hist.
Proof.
  cbv zeta. split; [reflexivity|].
  apply (@fetched_history_passes_window_unchanged stable_engine stable_engine_ok
           (lit "s1") busy_world).
  reflexivity.
Defined.

(** What a save does to the table, however it ends: nothing, or one
    row appended that carries the fields of the message. *)
Lemma save_message_table (m : ChatMessage) (w w' : World)
      (r : result ChatMessage) :
  SQLChatRepository.save_message m w = (r, w') ->
  chat_memory w' = chat_memory w \/
  exists row,
    chat_memory w' = chat_memory w ++ [row] /\
    Db.session_id row = Entities.session_id m /\
    Db.role row = Entities.role m /\
    Db.message row = Entities.message m /\
    Db.timestamp row = Entities.timestamp m /\
    (Db.id row = Some (next_rowid (chat_memory w)) /\ Entities.id m = None
     \/ Db.id row = Entities.id m /\ Entities.id m <> None /\
        ~ In (Entities.id m) (List.map Db.id (chat_memory w))).
Proof.
  intros H.
  unfold SQLChatRepository.save_message, add_commit_refresh in H.
  cbv beta iota zeta delta [bind get_table put_table ret raise lift Ok Raise
                            SQLChatRepository._entity_to_model Db.id] in H.
  destruct (Entities.id m) as [i|] eqn:Hid.
  - destruct (has_rowid i (chat_memory w)) eqn:Hhas.
    + left. now injection H as _ <-.
    + right. injection H as _ <-. eexists. split; [reflexivity|].
      cbn. repeat split; try reflexivity. right.
      repeat split; [discriminate|]. intros Hin.
      apply in_map_iff in Hin as [x [Hx Hin]].
      unfold has_rowid in Hhas.
      assert (Hex : existsb (fun r0 => match Db.id r0 with
                                       | Some j => Z.eqb i j
                                       | None => false
                                       end) (chat_memory w) = true).
      { apply existsb_exists. exists x. split; [exact Hin|].
        rewrite Hx. apply Z.eqb_refl. }
      congruence.
  - right. injection H as _ <-. eexists. split; [reflexivity|].
    cbn. repeat split; try reflexivity. left. split; reflexivity.
Qed.


Lemma filter_session_app_other (sid : str) (t : table) (r : ChatMemoryModel) :
  Db.session_id r <> sid ->
  filter_session sid (t ++ [r]) = filter_session sid t.
Proof.
  intros Hne. unfold filter_session. rewrite filter_app. simpl.
  apply str_eqb_neq in Hne. rewrite Hne. apply app_nil_r.
Qed.



(** X8.  Saving a turn of one session leaves what the repository reads
    for every other session as it was, for the full history, for a
    limited history and for the recent messages, whatever the outcome of
    the save. *)
Theorem save_leaves_other_sessions_alone {E : Engine}
  (m : ChatMessage) (w w' : World) (r : result ChatMessage)
  (other : str) (limit : option Z) (n : Z) :
  SQLChatRepository.save_message m w = (r, w') ->
  other <> Entities.session_id m ->
  fst (SQLChatRepository.get_session_history other limit w')
  = fst (SQLChatRepository.get_session_history other limit w) /\
  fst (SQLChatRepository.get_recent_messages other n w')
  = fst (SQLChatRepository.get_recent_messages other n w).
Proof.
  intros Hsave Hne.
  assert (Hf : filter_session other (chat_memory w')
               = filter_session other (chat_memory w)).
  { destruct (save_message_table _ _ Hsave) as [-> | (rw & -> & Hsid & _)];
      [reflexivity|].
    apply filter_session_app_other. congruence. }
  unfold SQLChatRepository.get_session_history, SQLChatRepository.get_recent_messages.
  cbv beta iota zeta delta [bind get_table lift Ok fst].
  rewrite Hf. split; reflexivity.
Qed.

Lemma save_leaves_other_sessions_alone_witness :
  let m := {| Entities.id := None; Entities.session_id := lit "s2";
              Entities.role := lit "user"; Entities.message := lit "y";
              Entities.timestamp := 40 |} in
  let w' := snd (SQLChatRepository.save_message m busy_world) in
  fst (@SQLChatRepository.get_session_history stable_engine (lit "s1") None w')
  = fst (@SQLChatRepository.get_session_history stable_engine (lit "s1") None busy_world).
Proof.
  cbv zeta.
  refine (proj1 (@save_leaves_other_sessions_alone stable_engine _ busy_world _ _
                   (lit "s1") None 6 (surjective_pairing _) _)).
  discriminate.
Defined.

(* ================================================================== *)
(** * Row ids *)
(* ================================================================== *)

Lemma rowid_below_next (t : table) (r : ChatMemoryModel) (i : Z) :
  In r t -> Db.id r = Some i -> (i < next_rowid t)%Z.
Proof.
  unfold next_rowid. induction t as [|x t IH]; intros Hin Hi; [destruct Hin|].
  cbn [fold_right]. destruct Hin as [->|Hin].
  - rewrite Hi. lia.
  - specialize (IH Hin Hi). destruct (Db.id x); lia.
Qed.

Lemma next_rowid_fresh (t : table) :
  ~ In (Some (next_rowid t)) (List.map Db.id t).
Proof.
  intros Hin. apply in_map_iff in Hin as [r [Hid Hin]].
  pose proof (rowid_below_next _ _ Hin Hid). lia.
Qed.

Lemma table_keyed_app (t : table) (r : ChatMemoryModel) :
  table_keyed t -> Db.id r <> None -> ~ In (Db.id r) (List.map Db.id t) ->
  table_keyed (t ++ [r]).
Proof.
  intros [Hnd Hall] Hsome Hfresh. split.
  - rewrite map_app. apply NoDup_app; [exact Hnd | repeat constructor; intros [] |].
    intros a Ha [<-|[]]. contradiction.
  - apply Forall_app. split; [exact Hall | repeat constructor; exact Hsome].
Qed.

Lemma table_keyed_filter (p : ChatMemoryModel -> bool) (t : table) :
  table_keyed t -> table_keyed (filter p t).
Proof.
  intros [Hnd Hall]. split.
  - clear Hall. induction t as [|x t IH]; [constructor|].
    simpl in *. inversion Hnd as [|? ? Hx Hnd']; subst.
    destruct (p x); [|now apply IH].
    simpl. constructor; [|now apply IH].
    intros Hin. apply Hx. apply in_map_iff in Hin as [y [Hy Hin]].
    apply in_map_iff. exists y. split; [exact Hy|]. now apply filter_In in Hin.
  - rewrite Forall_forall in *. intros x Hx. apply Hall. now apply filter_In in Hx.
Qed.

Lemma save_message_keeps_keys (m : ChatMessage) :
  preserves rows_keyed (SQLChatRepository.save_message m).
Proof.
  intros w r w' H Hw. unfold rows_keyed in *.
  destruct (save_message_table _ _ H) as [-> | (rw & -> & _ & _ & _ & _ & Hid)];
    [exact Hw|].
  apply table_keyed_app; [exact Hw | |].
  - destruct Hid as [[-> _]|[-> [Hne _]]]; [discriminate | exact Hne].
  - destruct Hid as [[-> _]|[-> [_ Hfresh]]]; [apply next_rowid_fresh | exact Hfresh].
Qed.

(** X9.  Row ids stay unique: in a table where every row has an id and
    no id occurs twice, a save, a whole request and a clearing of a
    session leave a table of the same kind, whatever their outcome. *)
Theorem row_ids_stay_unique
  {E : Engine} {product_repository : IProductRepository} {ai_service : AIService}
  (m : ChatMessage) (request : ChatMessageRequestDTO.t) (sid : str) :
  preserves rows_keyed (SQLChatRepository.save_message m) /\
  preserves rows_keyed (ChatService.process_message request) /\
  preserves rows_keyed (ChatService.clear_session_history sid).
Proof.
  split; [apply save_message_keeps_keys|]. split.
  - unfold ChatService.process_message.
    apply preserves_try_except; [|intros e; apply preserves_raise].
    apply preserves_bind; [apply preserves_lift|]. intros ps _.
    apply preserves_bind.
    { intros w r w' H Hw. pose proof (get_recent_messages_reads
        (ChatMessageRequestDTO.session_id request) 6 w) as Hsame.
      rewrite H in Hsame. simpl in Hsame. now subst w'. }
    intros hist _.
    apply preserves_bind; [apply preserves_lift|]. intros ai _.
    apply preserves_bind.
    { intros w r w' H Hw. unfold now in H. now injection H as _ <-. }
    intros tu _.
    apply preserves_bind; [apply preserves_lift|]. intros um _.
    apply preserves_bind; [apply save_message_keeps_keys|]. intros _ _.
    apply preserves_bind.
    { intros w r w' H Hw. unfold now in H. now injection H as _ <-. }
    intros ta _.
    apply preserves_bind; [apply preserves_lift|]. intros am _.
    apply preserves_bind; [apply save_message_keeps_keys|]. intros _ _.
    apply preserves_ret.
  - intros w r w' H Hw.
    unfold ChatService.clear_session_history, SQLChatRepository.delete_session_history,
      try_except, bind, get_table, put_table, ret in H.
    cbn in H. injection H as _ <-. unfold rows_keyed in *. cbn [chat_memory].
    now apply table_keyed_filter.
Qed.

(* ================================================================== *)
(** * The history as the service returns it *)
(* ================================================================== *)



Lemma busy_world_keyed : table_keyed (chat_memory busy_world).
Proof.
  split.
  - cbn. repeat constructor; cbn; intuition discriminate.
  - repeat constructor; discriminate.
Qed.


Lemma row_ids_stay_unique_witness :
  rows_keyed busy_world /\
  rows_keyed (snd (@ChatService.process_message stable_engine empty_catalog fake_ai
                     first_request busy_world)).
Proof.
  split; [exact busy_world_keyed|].
  refine (proj1 (proj2 (@row_ids_stay_unique stable_engine empty_catalog fake_ai
                          (turn "s1" "user" "a" 10) first_request (lit "s1")))
                busy_world _ _ (surjective_pairing _) busy_world_keyed).
Defined.

(* ================================================================== *)
(** * The exceptions of the chat service *)
(* ================================================================== *)

Lemma ChatServiceError_new_prefix (s : str) :
  startswith chat_error_prefix (exn_str (ChatServiceError_new s)) = true.
Proof.
  unfold ChatServiceError_new. destruct (truthy s); cbn [exn_str].
  - cbv. reflexivity.
  - reflexivity.
Qed.

(** X11.  Whatever goes wrong inside [process_message] or inside the
    service's [get_session_history] leaves as a [ChatServiceError] whose
    message starts with "Error en el servicio de chat"; a failed
    [get_session_history] also leaves the world as it was. *)
Theorem chat_service_raises_only_ChatServiceError
  {E : Engine} {product_repository : IProductRepository} {ai_service : AIService}
  (request : ChatMessageRequestDTO.t) (sid : str) (limit : option Z)
  (w w1 w2 : World) (e1 e2 : exn) :
  (ChatService.process_message request w = (Raise e1, w1) ->
   exn_cls e1 = ChatServiceError /\
   startswith chat_error_prefix (exn_str e1) = true)
  /\
  (ChatService.get_session_history sid limit w = (Raise e2, w2) ->
   exn_cls e2 = ChatServiceError /\
   startswith (chat_error_prefix ++ lit ": Error al obtener historial: ") (exn_str e2)
   = true /\
   w2 = w).
Proof.
  split.
  - unfold ChatService.process_message, try_except, raise.
    match goal with |- context [match ?c w with _ => _ end] => destruct (c w) as [[e|a] w0] end;
      intros H; [|discriminate].
    unfold Raise in H. injection H as <- _.
    split; [apply ChatServiceError_new_cls | apply ChatServiceError_new_prefix].
  - unfold ChatService.get_session_history, try_except, raise.
    match goal with |- context [match ?c w with _ => _ end] =>
      destruct (c w) as [[e|a] w0] eqn:Hc end;
      intros H; [|discriminate].
    unfold Raise in H. injection H as <- <-.
    split; [apply ChatServiceError_new_cls|]. split.
    + cbv. reflexivity.
    + unfold bind in Hc.
      pose proof (get_session_history_reads sid limit w) as Hsame.
      destruct (SQLChatRepository.get_session_history sid limit w) as [[e'|hist] w'];
        simpl in Hsame; subst w'.
      * now injection Hc as _ <-.
      * unfold lift in Hc. now injection Hc as _ <-.
Qed.

Lemma chat_service_raises_only_ChatServiceError_witness :
  exists e w1,
    @ChatService.process_message stable_engine empty_catalog
       (gemini two_decimals_stub failing_model) first_request busy_world
    = (Raise e, w1) /\
    exn_cls e = ChatServiceError /\
    startswith chat_error_prefix (exn_str e) = true.
Proof.
  eexists. eexists. split; [reflexivity|].
  refine (proj1 (@chat_service_raises_only_ChatServiceError stable_engine empty_catalog
                   (gemini two_decimals_stub failing_model) first_request
                   (lit "s1") None busy_world _ busy_world _
                   (Raised OtherError [])) eq_refl).
Defined.

(* ================================================================== *)
(** * A request whose reply is blank *)
(* ================================================================== *)

Lemma assistant_turn_refused_iff (sid reply : str) :
  blank sid = false ->
  (invalid_turn sid (lit "assistant") reply <-> blank reply = true).
Proof.
  intros Hs. unfold invalid_turn. rewrite !empty_or_whitespace_iff. split.
  - intros [H|[H|H]]; [congruence | exact H | exfalso; apply H; now right].
  - intros H. right. now left.
Qed.

(** X12.  With a readable catalog, a table of valid rows and an accepted
    request, the fate of [process_message] is decided by the reply of the
    AI service: a reply that is not blank gives the response and both
    turns saved; an empty or whitespace-only reply makes the request fail
    with a [ChatServiceError] after the user turn has been committed, so
    the session keeps a user turn without its assistant turn. *)
Theorem blank_reply_leaves_user_turn_alone
  {E : Engine} {product_repository : IProductRepository} {ai_service : AIService}
  (sid msg : str) (request : ChatMessageRequestDTO.t)
  (ps : list Product) (w : World) (reply : str) :
  engine_ok E ->
  table_valid (chat_memory w) ->
  ChatMessageRequestDTO.new sid msg = Ok request ->
  get_all = Ok ps ->
  generate_response msg ps
    (ChatContext_new (List.map entity_of_row (recent_rows sid 6 (chat_memory w))))
  = Ok reply ->
  (blank reply = false ->
   ChatService.process_message request w
   = (Ok (response_of w sid msg reply), world_after_turn w sid msg reply))
  /\
  (blank reply = true ->
   exists s,
     ChatService.process_message request w
     = (Raise (ChatServiceError_new s), world_after_user_turn w sid msg) /\
     chat_memory (world_after_user_turn w sid msg)
     = chat_memory w ++ [user_row w sid msg]).
Proof.
  intros HE Ht Hreq Hps Hgen.
  destruct (request_new_ok _ _ Hreq) as (Hsid & Hmsg & Hbs & Hbm).
  pose proof (@user_turn_accepted sid msg Hbs Hbm) as Hu.
  pose proof (@get_recent_messages_valid E HE sid 6 w Ht) as Hh.
  rewrite <- Hsid, <- Hmsg in Hu, Hgen. rewrite <- Hsid in Hh.
  split; intros Hb.
  - rewrite <- Hsid, <- Hmsg.
    apply (@process_message_run E product_repository ai_service request w ps _ reply
             Hps Hh Hgen Hu).
    rewrite Hsid. intros Hi. apply (@assistant_turn_refused_iff sid reply Hbs) in Hi.
    congruence.
  - assert (Hi : invalid_turn (ChatMessageRequestDTO.session_id request)
                              (lit "assistant") reply).
    { rewrite Hsid. now apply assistant_turn_refused_iff. }
    destruct (@process_message_reply_refused E product_repository ai_service request w
                ps _ reply Hps Hh Hgen Hu Hi) as [s Hrun].
    exists s. rewrite <- Hsid, <- Hmsg. split; [exact Hrun | reflexivity].
Qed.

Lemma blank_reply_leaves_user_turn_alone_witness :
  exists s,
    @ChatService.process_message stable_engine empty_catalog
       (gemini two_decimals_stub blank_model) first_request busy_world
    = (Raise (ChatServiceError_new s),
       world_after_user_turn busy_world (lit "s1") (lit "Busco Nike")) /\
    chat_memory (world_after_user_turn busy_world (lit "s1") (lit "Busco Nike"))
    = chat_memory busy_world ++ [user_row busy_world (lit "s1") (lit "Busco Nike")].
Proof.
  refine (proj2 (@blank_reply_leaves_user_turn_alone stable_engine empty_catalog
                   (gemini two_decimals_stub blank_model)
                   (lit "s1") (lit "Busco Nike") first_request [] busy_world []
                   stable_engine_ok busy_world_valid eq_refl eq_refl eq_refl) eq_refl).
Defined.

(* ================================================================== *)
(** * Further properties of GeminiService *)
(* ================================================================== *)

Lemma lstrip_nonspace (c : char) (s : str) :
  isspace c = false -> lstrip (c :: s) = c :: s.
Proof. intros H. simpl. now rewrite H. Qed.

(** Stripping a stripped string changes nothing. *)
Lemma strip_idempotent (s : str) : strip (strip s) = strip s.
Proof.
  destruct (strip_ends s) as [Hhd Hlast].
  destruct (strip s) as [|c r] eqn:Hs; [reflexivity|].
  unfold strip. rewrite (@lstrip_nonspace c r (Hhd c r eq_refl)).
  unfold rstrip.
  destruct (@exists_last _ (c :: r)) as (r' & d & Hrd); [discriminate|].
  rewrite Hrd. rewrite rev_app_distr. cbn [rev app].
  rewrite (@lstrip_nonspace d (rev r') (Hlast r' d Hrd)).
  change (d :: rev r') with ([d] ++ rev r').
  rewrite rev_app_distr, rev_involutive. reflexivity.
Qed.

(** X13.  [GeminiService.generate_response] either returns a text that
    neither starts nor ends with whitespace (stripping it again changes
    nothing) or raises a [ChatServiceError]; it raises nothing else. *)
Theorem gemini_reply_is_stripped_or_ChatServiceError
  (format_2f : float -> str) (g : GeminiService.t)
  (um : str) (ps : list Product) (ctx : option ChatContext) :
  match GeminiService.generate_response format_2f g um ps ctx with
  | inr s =>
      strip s = s /\
      (forall c r, s = c :: r -> isspace c = false) /\
      (forall r c, s = r ++ [c] -> isspace c = false)
  | inl e =>
      exn_cls e = ChatServiceError /\
      startswith (chat_error_prefix ++ lit ": Error al generar respuesta de Gemini: ")
                 (exn_str e) = true
  end.
Proof.
  unfold GeminiService.generate_response.
  destruct (GeminiService._generate_text g (GeminiService.prompt_of format_2f um ps ctx))
    as [e|raw]; cbn [rbind Ok Raise].
  - split; [apply ChatServiceError_new_cls|]. cbv. reflexivity.
  - split; [apply strip_idempotent | apply strip_ends].
Qed.

(** X14.  The catalog text is never empty: an empty catalog gives the
    fixed sentence, and otherwise there is one rendered item per product,
    the first of which starts with "- ". *)
Theorem catalog_text_never_empty (format_2f : float -> str) (ps : list Product) :
  GeminiService.format_products_info format_2f ps <> [] /\
  (ps = [] <->
   GeminiService.format_products_info format_2f ps
   = lit "No hay productos disponibles en este momento.") /\
  (ps <> [] ->
   startswith (lit "- ") (GeminiService.format_products_info format_2f ps) = true).
Proof.
  split; [|split].
  - destruct ps as [|p [|q ps]]; discriminate.
  - split; [now intros ->|].
    destruct ps as [|p [|q ps]]; [reflexivity | |]; intros H; cbv in H;
      discriminate.
  - destruct ps as [|p [|q ps]]; [contradiction | |]; intros _; reflexivity.
Qed.

(* ================================================================== *)
(** * Product *)
(* ================================================================== *)

Lemma product_post_init_spec (p : Product) :
  (ProductEntity.post_init p = Ok tt /\
   ~ invalid_product (Entities.name p) (Entities.price p) (Entities.stock p))
  \/ (exists s, ProductEntity.post_init p = Raise (Raised ValueError s) /\
      invalid_product (Entities.name p) (Entities.price p) (Entities.stock p)).
Proof.
  unfold ProductEntity.post_init, invalid_product, price_accepted.
  destruct (blank (Entities.name p)) eqn:Hn.
  { right. eexists; split; [reflexivity|]. left. now apply empty_or_whitespace_iff. }
  destruct (PrimFloat.leb (Entities.price p) PrimFloat.zero) eqn:Hp.
  { right. eexists; split; [reflexivity|]. right; left. congruence. }
  destruct (Z.ltb_spec (Entities.stock p) 0) as [Hs|Hs].
  { right. eexists; split; [reflexivity|]. right; right. exact Hs. }
  left. split; [reflexivity|].
  rewrite empty_or_whitespace_iff, Hn. intros [H|[H|H]];
    [discriminate | now apply H | lia].
Qed.

(** X15.  Constructing a Product raises a [ValueError] exactly when the
    name is empty or whitespace-only, or [price <= 0] holds, or the stock
    is negative; otherwise it succeeds with the fields it was given.  The
    test on the price lets a NaN through, since [nan <= 0] is false. *)
Theorem product_construction (i : option Z) (n b c sz col : str) (pr : float)
        (st : Z) (d : str) :
  ((exists e, ProductEntity.Product_new i n b c sz col pr st d = Raise e /\
              exn_cls e = ValueError)
   <-> invalid_product n pr st)
  /\
  (ProductEntity.Product_new i n b c sz col pr st d
   = Ok {| product_id := i; Entities.name := n; Entities.brand := b;
           Entities.category := c; Entities.size := sz; Entities.color := col;
           Entities.price := pr; Entities.stock := st; Entities.description := d |}
   <-> ~ invalid_product n pr st)
  /\
  (~ empty_or_whitespace n -> (0 <= st)%Z ->
   exists p, ProductEntity.Product_new i n b c sz col PrimFloat.nan st d = Ok p).
Proof.
  unfold ProductEntity.Product_new.
  set (p := {| product_id := i; Entities.name := n; Entities.brand := b;
               Entities.category := c; Entities.size := sz; Entities.color := col;
               Entities.price := pr; Entities.stock := st; Entities.description := d |}).
  split; [|split].
  - destruct (product_post_init_spec p) as [[Hok Hv]|[s [Hr Hi]]];
      cbn [Entities.name Entities.price Entities.stock p] in *.
    + rewrite Hok. cbn. split; [intros [e [He _]]; discriminate | contradiction].
    + rewrite Hr. cbn. split; [intros _; exact Hi|].
      intros _. eexists. split; reflexivity.
  - destruct (product_post_init_spec p) as [[Hok Hv]|[s [Hr Hi]]];
      cbn [Entities.name Entities.price Entities.stock p] in *.
    + rewrite Hok. cbn. split; [intros _; exact Hv | reflexivity].
    + rewrite Hr. cbn. split; [discriminate | contradiction].
  - intros Hn Hs.
    destruct (product_post_init_spec
                {| product_id := i; Entities.name := n; Entities.brand := b;
                   Entities.category := c; Entities.size := sz; Entities.color := col;
                   Entities.price := PrimFloat.nan; Entities.stock := st;
                   Entities.description := d |}) as [[Hok _]|[s [_ Hi]]].
    + rewrite Hok. eexists. reflexivity.
    + exfalso. cbn in Hi. destruct Hi as [H|[H|H]]; [contradiction | | lia].
      apply H. reflexivity.
Qed.

(** X16.  [reduce_stock] succeeds exactly for a quantity [q] with
    [0 < q <= stock], leaving [stock - q], and otherwise raises a
    [ValueError]; [increase_stock] succeeds exactly for [q > 0], leaving
    [stock + q].  Neither touches another field. *)
Theorem stock_operations (p : Product) (q : Z) :
  (ProductEntity.reduce_stock p q
   = Ok (ProductEntity.with_stock p (Entities.stock p - q))
   <-> (0 < q <= Entities.stock p)%Z)
  /\
  ((exists e, ProductEntity.reduce_stock p q = Raise e /\ exn_cls e = ValueError)
   <-> (q <= 0 \/ Entities.stock p < q)%Z)
  /\
  (ProductEntity.increase_stock p q
   = Ok (ProductEntity.with_stock p (Entities.stock p + q))
   <-> (0 < q)%Z)
  /\
  ((exists e, ProductEntity.increase_stock p q = Raise e /\ exn_cls e = ValueError)
   <-> (q <= 0)%Z).
Proof.
  unfold ProductEntity.reduce_stock, ProductEntity.increase_stock.
  rewrite Z.gtb_ltb.
  destruct (Z.leb_spec q 0) as [Hq|Hq];
    [|destruct (Z.ltb_spec (Entities.stock p) q) as [Hs|Hs]];
    (split; [|split; [|split]]); split; intros H;
    first [ discriminate H
          | reflexivity
          | lia
          | (eexists; split; reflexivity)
          | (destruct H as [e [He _]]; discriminate He) ].
Qed.

Lemma with_stock_same (p : Product) : ProductEntity.with_stock p (Entities.stock p) = p.
Proof. now destruct p. Qed.

(** X17.  The stock operations keep a product sound: after a successful
    [reduce_stock] the stock is not negative, whatever it was before; a
    product that passed its validation still passes it after either
    operation; and after a successful [increase_stock] on such a product
    the product is available. *)
Theorem stock_operations_keep_product_valid (p p' : Product) (q : Z) :
  (ProductEntity.reduce_stock p q = Ok p' -> (0 <= Entities.stock p')%Z)
  /\
  (ProductEntity.post_init p = Ok tt ->
   (ProductEntity.reduce_stock p q = Ok p' -> ProductEntity.post_init p' = Ok tt) /\
   (ProductEntity.increase_stock p q = Ok p' ->
    ProductEntity.post_init p' = Ok tt /\ ProductEntity.is_available p' = true)).
Proof.
  assert (Hred : ProductEntity.reduce_stock p q = Ok p' ->
                 p' = ProductEntity.with_stock p (Entities.stock p - q) /\
                 (0 < q <= Entities.stock p)%Z).
  { unfold ProductEntity.reduce_stock. rewrite Z.gtb_ltb.
    destruct (Z.leb_spec q 0) as [Ha|Ha]; [discriminate|].
    destruct (Z.ltb_spec (Entities.stock p) q) as [Hb|Hb]; [discriminate|].
    unfold Ok. intros Heq. injection Heq as <-. split; [reflexivity | lia]. }
  assert (Hinc : ProductEntity.increase_stock p q = Ok p' ->
                 p' = ProductEntity.with_stock p (Entities.stock p + q) /\ (0 < q)%Z).
  { unfold ProductEntity.increase_stock.
    destruct (Z.leb_spec q 0) as [Ha|Ha]; [discriminate|].
    unfold Ok. intros Heq. injection Heq as <-. split; [reflexivity | lia]. }
  split.
  - intros H. destruct (Hred H) as [-> Hq]. cbn. lia.
  - intros Hp.
    assert (Hvalid : blank (Entities.name p) = false /\
                     PrimFloat.leb (Entities.price p) PrimFloat.zero = false /\
                     (0 <= Entities.stock p)%Z).
    { unfold ProductEntity.post_init in Hp.
      destruct (blank (Entities.name p)); [discriminate|].
      destruct (PrimFloat.leb (Entities.price p) PrimFloat.zero); [discriminate|].
      destruct (Z.ltb_spec (Entities.stock p) 0) as [Ha|Ha]; [discriminate|]. auto. }
    destruct Hvalid as (Hn & Hpr & Hs).
    split; intros H.
    + destruct (Hred H) as [-> Hq]. unfold ProductEntity.post_init. cbn.
      rewrite Hn, Hpr. destruct (Z.ltb_spec (Entities.stock p - q) 0); [lia | reflexivity].
    + destruct (Hinc H) as [-> Hq]. unfold ProductEntity.post_init, ProductEntity.is_available.
      cbn. rewrite Hn, Hpr.
      destruct (Z.ltb_spec (Entities.stock p + q) 0); [lia|].
      split; [reflexivity | lia].
Qed.

(** X18.  Adding a quantity to the stock and taking it away again, or the
    other way round, gives the product back: [increase_stock] then
    [reduce_stock] by the same [q > 0] on a product with a stock that is
    not negative, and [reduce_stock] then [increase_stock] whenever the
    first one succeeds. *)
Theorem stock_round_trip (p : Product) (q : Z) :
  ((0 <= Entities.stock p)%Z -> (0 < q)%Z ->
   rbind (ProductEntity.increase_stock p q) (fun p' => ProductEntity.reduce_stock p' q)
   = Ok p)
  /\
  (forall p', ProductEntity.reduce_stock p q = Ok p' ->
              ProductEntity.increase_stock p' q = Ok p).
Proof.
  split.
  - intros Hs Hq. unfold ProductEntity.increase_stock, ProductEntity.reduce_stock.
    destruct (Z.leb_spec q 0); [lia|]. cbn [rbind Ok].
    destruct (Z.leb_spec q 0); [lia|]. rewrite Z.gtb_ltb. cbn [Entities.stock ProductEntity.with_stock].
    destruct (Z.ltb_spec (Entities.stock p + q) q); [lia|].
    replace (Entities.stock p + q - q)%Z with (Entities.stock p) by lia.
    f_equal. now destruct p.
  - intros p'. unfold ProductEntity.reduce_stock, ProductEntity.increase_stock.
    rewrite Z.gtb_ltb.
    destruct (Z.leb_spec q 0) as [Ha|Ha]; [discriminate|].
    destruct (Z.ltb_spec (Entities.stock p) q) as [Hb|Hb]; [discriminate|].
    unfold Ok. intros Heq. injection Heq as <-.
    cbn [Entities.stock ProductEntity.with_stock].
    replace (Entities.stock p - q + q)%Z with (Entities.stock p) by lia.
    f_equal. now destruct p.
Qed.

Lemma stock_operations_keep_product_valid_witness :
  ProductEntity.reduce_stock shoe 5 = Ok (ProductEntity.with_stock shoe 0) /\
  (0 <= Entities.stock (ProductEntity.with_stock shoe 0))%Z.
Proof.
  split; [reflexivity|].
  exact (proj1 (@stock_operations_keep_product_valid
                  shoe (ProductEntity.with_stock shoe 0) 5) eq_refl).
Defined.

Lemma stock_round_trip_witness :
  rbind (ProductEntity.increase_stock shoe 3)
        (fun p' => ProductEntity.reduce_stock p' 3)
  = Ok shoe.
Proof.
  refine (proj1 (@stock_round_trip shoe 3) _ _); cbn; lia.
Defined.

(* ================================================================== *)
(** * The product table *)
(* ================================================================== *)

Lemma product_row_ok_fields (r : ProductDb.ProductModel) :
  product_row_ok r ->
  blank (ProductDb.name r) = false /\
  PrimFloat.leb (ProductDb.price r) PrimFloat.zero = false /\
  (0 <= ProductDb.stock r)%Z.
Proof.
  intros [Hv _]. unfold invalid_product, price_accepted in Hv.
  repeat split.
  - destruct (blank (ProductDb.name r)) eqn:Hb; [|reflexivity].
    exfalso. apply Hv. left. now apply empty_or_whitespace_iff.
  - destruct (PrimFloat.leb (ProductDb.price r) PrimFloat.zero) eqn:Hp; [|reflexivity].
    exfalso. apply Hv. right. left. discriminate.
  - destruct (Z.ltb_spec (ProductDb.stock r) 0); [|assumption].
    exfalso. apply Hv. right. right. assumption.
Qed.

Lemma product_model_to_entity (r : ProductDb.ProductModel) :
  product_row_ok r ->
  SQLProductRepository._model_to_entity r = Ok (entity_of_model r).
Proof.
  intros Hr. destruct (product_row_ok_fields Hr) as (Hn & Hp & Hs).
  unfold SQLProductRepository._model_to_entity, ProductEntity.Product_new,
    ProductEntity.post_init. cbn [Entities.name Entities.price Entities.stock].
  rewrite Hn, Hp. destruct (Z.ltb_spec (ProductDb.stock r) 0); [lia | reflexivity].
Qed.

Lemma product_model_validate (r : ProductDb.ProductModel) :
  product_row_ok r ->
  ProductDTO.model_validate (entity_of_model r) = Ok (dto_of_model r).
Proof.
  intros Hr. destruct (product_row_ok_fields Hr) as (_ & Hp & Hs).
  unfold ProductDTO.model_validate, ProductDTO.new, ProductDTO.price_must_be_positive,
    ProductDTO.stock_must_be_non_negative.
  cbn [Entities.name Entities.price Entities.stock entity_of_model].
  rewrite Hp. destruct (Z.ltb_spec (ProductDb.stock r) 0); [lia | reflexivity].
Qed.

Lemma product_rmap_entities (t : ProductDb.table) :
  Forall product_row_ok t ->
  rmap SQLProductRepository._model_to_entity t = Ok (List.map entity_of_model t).
Proof.
  induction 1 as [|r t Hr _ IH]; [reflexivity|].
  simpl. rewrite (product_model_to_entity Hr). simpl. now rewrite IH.
Qed.

Lemma product_rmap_dtos (t : ProductDb.table) :
  Forall product_row_ok t ->
  rmap ProductDTO.model_validate (List.map entity_of_model t)
  = Ok (List.map dto_of_model t).
Proof.
  induction 1 as [|r t Hr _ IH]; [reflexivity|].
  simpl. rewrite (product_model_validate Hr). simpl. now rewrite IH.
Qed.

Lemma first_by_id_some (i : Z) (t : ProductDb.table) (r : ProductDb.ProductModel) :
  ProductDb.first_by_id i t = Some r -> In r t /\ ProductDb.id r = Some i.
Proof.
  unfold ProductDb.first_by_id. intros H. apply find_some in H as [Hin Hid].
  split; [exact Hin|]. unfold ProductDb.has_id in Hid.
  destruct (ProductDb.id r) as [j|]; [|discriminate].
  apply Z.eqb_eq in Hid. now subst.
Qed.

Lemma first_by_id_none (i : Z) (t : ProductDb.table) :
  ProductDb.first_by_id i t = None <-> ~ stored i t.
Proof.
  unfold ProductDb.first_by_id, stored. split.
  - intros H Hin. apply in_map_iff in Hin as [r [Hid Hin]].
    pose proof (find_none _ _ H r Hin) as Hf. unfold ProductDb.has_id in Hf.
    rewrite Hid, Z.eqb_refl in Hf. discriminate.
  - intros H. destruct (find (ProductDb.has_id i) t) as [r|] eqn:Hf; [|reflexivity].
    exfalso. apply H. apply find_some in Hf as [Hin Hid].
    unfold ProductDb.has_id in Hid. destruct (ProductDb.id r) as [j|] eqn:Hj; [|discriminate].
    apply Z.eqb_eq in Hid. subst j. apply in_map_iff. exists r. auto.
Qed.

Lemma first_by_id_stored (i : Z) (t : ProductDb.table) :
  stored i t -> exists r, ProductDb.first_by_id i t = Some r.
Proof.
  intros H. destruct (ProductDb.first_by_id i t) as [r|] eqn:Hf; [now exists r|].
  apply first_by_id_none in Hf. contradiction.
Qed.

Lemma first_by_id_app_new (i : Z) (t : ProductDb.table) (r : ProductDb.ProductModel) :
  ~ stored i t -> ProductDb.id r = Some i ->
  ProductDb.first_by_id i (t ++ [r]) = Some r.
Proof.
  intros Hn Hid. apply first_by_id_none in Hn. unfold ProductDb.first_by_id in *.
  induction t as [|x t IH]; simpl in *.
  - unfold ProductDb.has_id. now rewrite Hid, Z.eqb_refl.
  - destruct (ProductDb.has_id i x); [discriminate | now apply IH].
Qed.

Lemma product_rowid_below_next (t : ProductDb.table) (r : ProductDb.ProductModel) (i : Z) :
  In r t -> ProductDb.id r = Some i -> (i < ProductDb.next_rowid t)%Z.
Proof.
  unfold ProductDb.next_rowid. induction t as [|x t IH]; intros Hin Hi; [destruct Hin|].
  cbn [fold_right]. destruct Hin as [->|Hin].
  - rewrite Hi. lia.
  - specialize (IH Hin Hi). destruct (ProductDb.id x); lia.
Qed.

Lemma product_next_rowid_fresh (t : ProductDb.table) :
  ~ stored (ProductDb.next_rowid t) t.
Proof.
  intros Hin. apply in_map_iff in Hin as [r [Hid Hin]].
  pose proof (product_rowid_below_next _ _ Hin Hid). lia.
Qed.

Lemma products_ok_app (t : ProductDb.table) (r : ProductDb.ProductModel) (i : Z) :
  products_ok t -> ProductDb.id r = Some i -> ~ stored i t -> product_row_ok r ->
  products_ok (t ++ [r]).
Proof.
  intros (Hnd & Hids & Hrows) Hid Hfresh Hr. split; [|split].
  - rewrite map_app. apply NoDup_app; [exact Hnd | repeat constructor; intros [] |].
    intros a Ha [<-|[]]. simpl in Ha. rewrite Hid in Ha. contradiction.
  - apply Forall_app. split; [exact Hids|]. constructor; [congruence | constructor].
  - apply Forall_app. split; [exact Hrows|]. constructor; [exact Hr | constructor].
Qed.

Lemma dto_name_checked (d : ProductDTO.t) (i : option Z) :
  dto_ok d ->
  (blank (ProductDTO.name d) = true ->
   ProductService.product_of_dto i d
   = inl (InvalidProductDataError_new
            (lit "name no puede estar vac" ++ [237%N; 111%N])))
  /\
  (blank (ProductDTO.name d) = false ->
   ProductService.product_of_dto i d
   = inr {| product_id := i; Entities.name := ProductDTO.name d;
            Entities.brand := ProductDTO.brand d;
            Entities.category := ProductDTO.category d;
            Entities.size := ProductDTO.size d; Entities.color := ProductDTO.color d;
            Entities.price := ProductDTO.price d; Entities.stock := ProductDTO.stock d;
            Entities.description := ProductDTO.description d |}).
Proof.
  intros (Hp & _ & Hs). unfold price_accepted in Hp.
  unfold ProductService.product_of_dto, ProductEntity.Product_new, ProductEntity.post_init.
  cbn [Entities.name Entities.price Entities.stock].
  split; intros Hn; rewrite Hn; [reflexivity|].
  rewrite Hp. destruct (Z.ltb_spec (ProductDTO.stock d) 0); [lia | reflexivity].
Qed.

Lemma model_of_dto_ok (i : Z) (d : ProductDTO.t) :
  dto_ok d -> blank (ProductDTO.name d) = false -> product_row_ok (model_of_dto i d).
Proof.
  intros (Hp & Hnan & Hs) Hn. split; [|exact Hnan].
  cbn. intros [H|[H|H]].
  - apply empty_or_whitespace_iff in H. congruence.
  - now apply H.
  - lia.
Qed.

(** A row whose texts are encodable and whose stock has 64 bits is taken
    by SQLite; with encodable texts and a stock beyond 64 bits the stock
    is what it refuses. *)
Lemma bind_row_storable (r : ProductDb.ProductModel) :
  dto_storable (dto_of_model r) -> ProductDb.bind_row r = Ok tt.
Proof.
  unfold dto_storable, dto_text_ok, dto_of_model.
  cbn [ProductDTO.name ProductDTO.brand ProductDTO.category ProductDTO.size
       ProductDTO.color ProductDTO.description ProductDTO.stock].
  intros [(Hn & Hb & Hc & Hs & Hco & Hd) Hst].
  unfold ProductDb.bind_row, Sqlite.bind_text, Sqlite.bind_integer.
  rewrite Hn, Hb, Hc, Hs, Hco, Hd, Hst. reflexivity.
Qed.

Lemma bind_row_overflow (r : ProductDb.ProductModel) :
  dto_text_ok (dto_of_model r) -> Sqlite.int64 (ProductDb.stock r) = false ->
  ProductDb.bind_row r = Raise Sqlite.OverflowError.
Proof.
  unfold dto_text_ok, dto_of_model.
  cbn [ProductDTO.name ProductDTO.brand ProductDTO.category ProductDTO.size
       ProductDTO.color ProductDTO.description].
  intros (Hn & Hb & Hc & Hs & Hco & Hd) Hst.
  unfold ProductDb.bind_row, Sqlite.bind_text, Sqlite.bind_integer.
  rewrite Hn, Hb, Hc, Hs, Hco, Hst. reflexivity.
Qed.

Lemma int64_beyond (n : Z) : (2 ^ 63 <= n)%Z -> Sqlite.int64 n = false.
Proof.
  intros H. unfold Sqlite.int64. apply andb_false_iff. right.
  apply Z.ltb_ge. exact H.
Qed.

(** [save] of a product without id. *)
Lemma save_new_row (product : Product) (t : ProductDb.table) :
  product_id product = None ->
  ProductDb.bind_row (SQLProductRepository._entity_to_model product) = Ok tt ->
  SQLProductRepository.save product t
  = (let stored := {| ProductDb.id := Some (ProductDb.next_rowid t);
                      ProductDb.name := Entities.name product;
                      ProductDb.brand := Entities.brand product;
                      ProductDb.category := Entities.category product;
                      ProductDb.size := Entities.size product;
                      ProductDb.color := Entities.color product;
                      ProductDb.price := Entities.price product;
                      ProductDb.stock := Entities.stock product;
                      ProductDb.description := Entities.description product |} in
     (of_result (SQLProductRepository._model_to_entity stored), t ++ [stored])).
Proof.
  intros Hid Hbind. unfold SQLProductRepository.save. rewrite Hid.
  cbv zeta. rewrite Hbind. reflexivity.
Qed.

Lemma save_new_row_refused (product : Product) (t : ProductDb.table) (e : exn) :
  product_id product = None ->
  ProductDb.bind_row (SQLProductRepository._entity_to_model product) = Raise e ->
  SQLProductRepository.save product t = (inl (Library e), t).
Proof.
  intros Hid Hbind. unfold SQLProductRepository.save. rewrite Hid.
  cbv zeta. rewrite Hbind. reflexivity.
Qed.

(** X19.  [create_product] on a table of sound rows, for a DTO that
    passed its validators: a blank name makes it raise
    [InvalidProductDataError] with the table untouched; otherwise, when
    the texts of the DTO are encodable, its stock has 64 bits and the
    next row id is one SQLite gives, it appends one row under the next
    free id, returns the DTO's data with that id, and
    [get_product_by_id] of that id then returns the same DTO; the table
    stays sound.  A stock of 2^63 or more is refused by SQLite when the
    row is inserted: the OverflowError of the driver leaves
    [create_product] and nothing is stored. *)
Theorem created_product_is_found (d : ProductDTO.t) (t : ProductDb.table) :
  products_ok t ->
  dto_ok d ->
  (blank (ProductDTO.name d) = true ->
   ProductService.create_product d t
   = (inl (InvalidProductDataError_new
             (lit "name no puede estar vac" ++ [237%N; 111%N])), t))
  /\
  (blank (ProductDTO.name d) = false -> dto_storable d ->
   Sqlite.int64 (ProductDb.next_rowid t) = true ->
   let i := ProductDb.next_rowid t in
   let row := model_of_dto i d in
   ProductService.create_product d t = (inr (dto_of_model row), t ++ [row]) /\
   ProductService.get_product_by_id i (t ++ [row])
   = (inr (dto_of_model row), t ++ [row]) /\
   products_ok (t ++ [row]))
  /\
  (blank (ProductDTO.name d) = false -> dto_text_ok d ->
   (2 ^ 63 <= ProductDTO.stock d)%Z ->
   ProductService.create_product d t = (inl (Library Sqlite.OverflowError), t)).
Proof.
  intros Ht Hd. destruct (dto_name_checked None Hd) as [Hblank Hgood].
  split; [|split].
  - intros Hn. unfold ProductService.create_product. now rewrite (Hblank Hn).
  - intros Hn Hst _ i row.
    pose proof (model_of_dto_ok i Hd Hn) as Hrow. fold row in Hrow.
    split; [|split].
    + unfold ProductService.create_product. rewrite (Hgood Hn).
      unfold ProductService.save_and_validate.
      rewrite save_new_row by (first [reflexivity | apply bind_row_storable; exact Hst]).
      cbn [product_id SQLProductRepository._entity_to_model ProductDb.name
           ProductDb.brand ProductDb.category ProductDb.size ProductDb.color
           ProductDb.price ProductDb.stock ProductDb.description
           Entities.name Entities.brand Entities.category Entities.size
           Entities.color Entities.price Entities.stock Entities.description].
      fold i. change {| ProductDb.id := Some i; ProductDb.name := ProductDTO.name d;
                        ProductDb.brand := ProductDTO.brand d;
                        ProductDb.category := ProductDTO.category d;
                        ProductDb.size := ProductDTO.size d;
                        ProductDb.color := ProductDTO.color d;
                        ProductDb.price := ProductDTO.price d;
                        ProductDb.stock := ProductDTO.stock d;
                        ProductDb.description := ProductDTO.description d |} with row.
      rewrite (product_model_to_entity Hrow).
      cbv beta iota zeta delta [of_result Ok].
      pose proof (product_model_validate Hrow) as Hdto. unfold Ok in Hdto.
      now rewrite Hdto.
    + unfold ProductService.get_product_by_id, SQLProductRepository.get_by_id.
      rewrite (@first_by_id_app_new i t row (product_next_rowid_fresh t) eq_refl).
      rewrite (product_model_to_entity Hrow).
      cbv beta iota zeta delta [rbind of_result Ok].
      pose proof (product_model_validate Hrow) as Hdto. unfold Ok in Hdto.
      now rewrite Hdto.
    + apply (@products_ok_app t row i Ht eq_refl (product_next_rowid_fresh t) Hrow).
  - intros Hn Htxt Hbig.
    unfold ProductService.create_product. rewrite (Hgood Hn).
    unfold ProductService.save_and_validate.
    rewrite (@save_new_row_refused _ t Sqlite.OverflowError); [reflexivity | reflexivity |].
    apply bind_row_overflow; [exact Htxt | apply int64_beyond; exact Hbig].
Qed.

Lemma product_row_check (r : ProductDb.ProductModel) :
  ProductEntity.post_init (entity_of_model r) = Ok tt ->
  PrimFloat.is_nan (ProductDb.price r) = false ->
  product_row_ok r.
Proof.
  intros H Hnan. split; [|exact Hnan].
  destruct (product_post_init_spec (entity_of_model r)) as [[_ Hv]|[s [Hr _]]].
  - exact Hv.
  - rewrite Hr in H. discriminate.
Qed.

Lemma catalog_ok : products_ok catalog.
Proof.
  split; [|split].
  - cbn. repeat constructor; cbn; intuition discriminate.
  - repeat (constructor; [discriminate|]). constructor.
  - repeat (constructor; [apply product_row_check; reflexivity|]). constructor.
Qed.

Lemma new_product_ok : dto_ok new_product.
Proof. split; [reflexivity|]. split; [reflexivity|]. cbn. lia. Qed.

Lemma new_product_storable : dto_storable new_product.
Proof. repeat split; reflexivity. Qed.

Lemma created_product_is_found_witness :
  (let row := model_of_dto 4 new_product in
   ProductService.create_product new_product catalog
   = (inr (dto_of_model row), catalog ++ [row]) /\
   ProductService.get_product_by_id 4 (catalog ++ [row])
   = (inr (dto_of_model row), catalog ++ [row]) /\
   products_ok (catalog ++ [row]))
  /\
  ProductService.create_product overstocked_product catalog
  = (inl (Library Sqlite.OverflowError), catalog).
Proof.
  split.
  - exact (proj1 (proj2 (@created_product_is_found new_product catalog catalog_ok
                           new_product_ok))
                 eq_refl new_product_storable eq_refl).
  - refine (proj2 (proj2 (@created_product_is_found overstocked_product catalog
                            catalog_ok _))
                  eq_refl _ _).
    + split; [reflexivity|]. split; [reflexivity|]. cbn. lia.
    + repeat split; reflexivity.
    + cbn. lia.
Defined.

(* ================================================================== *)
(** * Deleting and updating a product *)
(* ================================================================== *)

Lemma has_id_true (i : Z) (r : ProductDb.ProductModel) :
  ProductDb.has_id i r = true <-> ProductDb.id r = Some i.
Proof.
  unfold ProductDb.has_id. destruct (ProductDb.id r) as [j|].
  - rewrite Z.eqb_eq. split; congruence.
  - split; discriminate.
Qed.

Lemma has_id_other (i j : Z) (r : ProductDb.ProductModel) :
  ProductDb.has_id i r = true -> j <> i -> ProductDb.has_id j r = false.
Proof.
  intros Hi Hne. apply has_id_true in Hi. unfold ProductDb.has_id. rewrite Hi.
  apply Z.eqb_neq. congruence.
Qed.





Lemma get_by_id_stored (i : Z) (t : ProductDb.table) :
  products_ok t -> stored i t ->
  exists r, ProductDb.first_by_id i t = Some r /\ In r t /\ ProductDb.id r = Some i /\
            SQLProductRepository.get_by_id i t = (inr (Some (entity_of_model r)), t).
Proof.
  intros (_ & _ & Hrows) Hs. destruct (@first_by_id_stored _ _ Hs) as [r Hf].
  destruct (@first_by_id_some _ _ _ Hf) as [Hin Hid].
  exists r. repeat split; try assumption.
  unfold SQLProductRepository.get_by_id. rewrite Hf.
  rewrite Forall_forall in Hrows.
  now rewrite (@product_model_to_entity _ (Hrows r Hin)).
Qed.

Lemma get_by_id_missing (i : Z) (t : ProductDb.table) :
  ~ stored i t -> SQLProductRepository.get_by_id i t = (inr None, t).
Proof.
  intros Hs. apply first_by_id_none in Hs.
  unfold SQLProductRepository.get_by_id. now rewrite Hs.
Qed.



Section AssignFacts.
Variable i : Z.
Variable f : ProductDb.ProductModel -> ProductDb.ProductModel.
Hypothesis f_keeps_id : forall r, ProductDb.id (f r) = ProductDb.id r.

Lemma assign_first_ids (t : ProductDb.table) :
  List.map ProductDb.id (ProductDb.assign_first i f t) = List.map ProductDb.id t.
Proof.
  induction t as [|x t IH]; simpl; [reflexivity|].
  destruct (ProductDb.has_id i x); simpl; [now rewrite f_keeps_id | now rewrite IH].
Qed.

Lemma assign_first_found (t : ProductDb.table) (r : ProductDb.ProductModel) :
  ProductDb.first_by_id i t = Some r ->
  ProductDb.first_by_id i (ProductDb.assign_first i f t) = Some (f r).
Proof.
  unfold ProductDb.first_by_id. induction t as [|x t IH]; simpl; [discriminate|].
  destruct (ProductDb.has_id i x) eqn:Hi.
  - intros H. injection H as <-. simpl.
    assert (Hfx : ProductDb.has_id i (f x) = true).
    { unfold ProductDb.has_id in *. now rewrite f_keeps_id. }
    now rewrite Hfx.
  - intros H. simpl. rewrite Hi. now apply IH.
Qed.

Lemma assign_first_other (j : Z) (t : ProductDb.table) :
  j <> i ->
  ProductDb.first_by_id j (ProductDb.assign_first i f t) = ProductDb.first_by_id j t.
Proof.
  intros Hne. unfold ProductDb.first_by_id.
  induction t as [|x t IH]; simpl; [reflexivity|].
  destruct (ProductDb.has_id i x) eqn:Hi; simpl.
  - assert (Hfx : ProductDb.has_id j (f x) = false).
    { unfold ProductDb.has_id. rewrite f_keeps_id.
      exact (@has_id_other _ _ _ Hi Hne). }
    now rewrite Hfx, (@has_id_other _ _ _ Hi Hne).
  - now rewrite IH.
Qed.

Lemma assign_first_rows (P : ProductDb.ProductModel -> Prop) (t : ProductDb.table) :
  (forall r, ProductDb.has_id i r = true -> P (f r)) ->
  Forall P t -> Forall P (ProductDb.assign_first i f t).
Proof.
  intros Hf. induction 1 as [|x t Hx Ht IH]; simpl; [constructor|].
  destruct (ProductDb.has_id i x) eqn:Hi; constructor; auto.
Qed.

End AssignFacts.

Lemma assign_fields_of_dto (i : Z) (d : ProductDTO.t) (r : ProductDb.ProductModel) :
  ProductDb.id r = Some i ->
  SQLProductRepository.assign_fields
    {| product_id := Some i; Entities.name := ProductDTO.name d;
       Entities.brand := ProductDTO.brand d; Entities.category := ProductDTO.category d;
       Entities.size := ProductDTO.size d; Entities.color := ProductDTO.color d;
       Entities.price := ProductDTO.price d; Entities.stock := ProductDTO.stock d;
       Entities.description := ProductDTO.description d |} r
  = model_of_dto i d.
Proof.
  intros Hid. unfold SQLProductRepository.assign_fields, model_of_dto. cbn.
  now rewrite Hid.
Qed.

(** [save] of a product with the id of a row. *)
Lemma save_existing_row (product : Product) (i : Z) (model : ProductDb.ProductModel)
      (t : ProductDb.table) :
  product_id product = Some i ->
  Sqlite.int64 i = true ->
  ProductDb.first_by_id i t = Some model ->
  ProductDb.bind_row (SQLProductRepository.assign_fields product model) = Ok tt ->
  SQLProductRepository.save product t
  = (of_result (SQLProductRepository._model_to_entity
                  (SQLProductRepository.assign_fields product model)),
     ProductDb.assign_first i (SQLProductRepository.assign_fields product) t).
Proof.
  intros Hid Hi Hf Hbind. unfold SQLProductRepository.save, Sqlite.bind_integer.
  rewrite Hid, Hi. cbv beta iota delta [Ok]. rewrite Hf, Hbind. reflexivity.
Qed.

Lemma save_existing_row_refused (product : Product) (i : Z)
      (model : ProductDb.ProductModel) (t : ProductDb.table) (e : exn) :
  product_id product = Some i ->
  Sqlite.int64 i = true ->
  ProductDb.first_by_id i t = Some model ->
  ProductDb.bind_row (SQLProductRepository.assign_fields product model) = Raise e ->
  SQLProductRepository.save product t = (inl (Library e), t).
Proof.
  intros Hid Hi Hf Hbind. unfold SQLProductRepository.save, Sqlite.bind_integer.
  rewrite Hid, Hi. cbv beta iota delta [Ok]. rewrite Hf, Hbind. reflexivity.
Qed.

(** X21.  [update_product] on a sound table, for an id of 64 bits and a
    DTO that passed its validators: an unknown id raises
    [ProductNotFoundError] and a blank name raises
    [InvalidProductDataError], both with the table untouched; otherwise,
    when the texts of the DTO are encodable and its stock has 64 bits,
    the row of that id takes the DTO's data in place, the result and a
    later [get_product_by_id] both show them under the same id, no row is
    added or removed, and every other id is found as before.  A stock of
    2^63 or more is refused by SQLite when the row is updated: the
    OverflowError of the driver leaves [update_product] and the table is
    as it was. *)
Theorem update_product_replaces_in_place
  (i : Z) (d : ProductDTO.t) (t : ProductDb.table) :
  products_ok t ->
  dto_ok d ->
  Sqlite.int64 i = true ->
  (~ stored i t ->
   ProductService.update_product i d t
   = (inl (ProductNotFoundError_new (Some i)), t))
  /\
  (stored i t -> blank (ProductDTO.name d) = true ->
   ProductService.update_product i d t
   = (inl (InvalidProductDataError_new
             (lit "name no puede estar vac" ++ [237%N; 111%N])), t))
  /\
  (stored i t -> blank (ProductDTO.name d) = false -> dto_storable d ->
   exists t',
     ProductService.update_product i d t
     = (inr (dto_of_model (model_of_dto i d)), t') /\
     ProductService.get_product_by_id i t'
     = (inr (dto_of_model (model_of_dto i d)), t') /\
     List.map ProductDb.id t' = List.map ProductDb.id t /\
     (forall j, j <> i -> ProductDb.first_by_id j t' = ProductDb.first_by_id j t) /\
     products_ok t')
  /\
  (stored i t -> blank (ProductDTO.name d) = false -> dto_text_ok d ->
   (2 ^ 63 <= ProductDTO.stock d)%Z ->
   ProductService.update_product i d t = (inl (Library Sqlite.OverflowError), t)).
Proof.
  intros Ht Hd Hi64. destruct (dto_name_checked (Some i) Hd) as [Hblank Hgood].
  split; [|split; [|split]].
  - intros Hs. unfold ProductService.update_product.
    now rewrite (@get_by_id_missing _ _ Hs).
  - intros Hs Hn. destruct (@get_by_id_stored _ _ Ht Hs) as (r & _ & _ & _ & Hget).
    unfold ProductService.update_product. now rewrite Hget, (Hblank Hn).
  - intros Hs Hn Hst.
    destruct (@get_by_id_stored _ _ Ht Hs) as (r & Hf & Hin & Hid & Hget).
    pose proof (model_of_dto_ok i Hd Hn) as Hrow.
    set (updated := {| product_id := Some i; Entities.name := ProductDTO.name d;
                       Entities.brand := ProductDTO.brand d;
                       Entities.category := ProductDTO.category d;
                       Entities.size := ProductDTO.size d;
                       Entities.color := ProductDTO.color d;
                       Entities.price := ProductDTO.price d;
                       Entities.stock := ProductDTO.stock d;
                       Entities.description := ProductDTO.description d |}) in *.
    set (t' := ProductDb.assign_first i (SQLProductRepository.assign_fields updated) t).
    assert (Hkeep : forall x, ProductDb.id (SQLProductRepository.assign_fields updated x)
                              = ProductDb.id x) by reflexivity.
    pose proof (Hgood Hn) as Hprod. fold updated in Hprod.
    pose proof (@product_model_to_entity _ Hrow) as Hent.
    pose proof (@product_model_validate _ Hrow) as Hdto. unfold Ok in Hent, Hdto.
    pose proof (@assign_fields_of_dto i d r Hid) as Haf. fold updated in Haf.
    assert (Hbind : ProductDb.bind_row (SQLProductRepository.assign_fields updated r)
                    = Ok tt).
    { rewrite Haf. apply bind_row_storable. exact Hst. }
    exists t'. split; [|split; [|split; [|split]]].
    + unfold ProductService.update_product. rewrite Hget, Hprod.
      unfold ProductService.save_and_validate.
      rewrite (@save_existing_row updated i r t eq_refl Hi64 Hf Hbind).
      fold t'. rewrite Haf.
      rewrite Hent. cbv beta iota zeta delta [of_result]. now rewrite Hdto.
    + unfold ProductService.get_product_by_id, SQLProductRepository.get_by_id.
      unfold t'. rewrite (@assign_first_found i _ Hkeep t r Hf).
      rewrite Haf.
      rewrite Hent. cbv beta iota zeta delta [rbind of_result Ok]. now rewrite Hdto.
    + apply assign_first_ids. exact Hkeep.
    + intros j Hj. apply assign_first_other; [exact Hkeep | exact Hj].
    + destruct Ht as (Hnd & Hids & Hrows). split; [|split].
      * unfold t'. now rewrite (@assign_first_ids i _ Hkeep t).
      * apply assign_first_rows; [|exact Hids]. intros x Hx. rewrite Hkeep.
        apply has_id_true in Hx. congruence.
      * apply assign_first_rows; [|exact Hrows]. intros x Hx.
        apply has_id_true in Hx.
        pose proof (@assign_fields_of_dto i d x Hx) as Hx'. fold updated in Hx'.
        now rewrite Hx'.
  - intros Hs Hn Htxt Hbig.
    destruct (@get_by_id_stored _ _ Ht Hs) as (r & Hf & Hin & Hid & Hget).
    pose proof (Hgood Hn) as Hprod.
    pose proof (@assign_fields_of_dto i d r Hid) as Haf.
    unfold ProductService.update_product. rewrite Hget, Hprod.
    unfold ProductService.save_and_validate.
    rewrite save_existing_row_refused
      with (i := i) (model := r) (e := Sqlite.OverflowError);
      [reflexivity | reflexivity | exact Hi64 | exact Hf |].
    rewrite Haf. apply bind_row_overflow; [exact Htxt | apply int64_beyond; exact Hbig].
Qed.

Lemma update_product_replaces_in_place_witness :
  (exists t',
      ProductService.update_product 2 new_product catalog
      = (inr (dto_of_model (model_of_dto 2 new_product)), t') /\
      ProductService.get_product_by_id 2 t'
      = (inr (dto_of_model (model_of_dto 2 new_product)), t') /\
      List.map ProductDb.id t' = List.map ProductDb.id catalog /\
      (forall j, j <> 2%Z ->
                 ProductDb.first_by_id j t' = ProductDb.first_by_id j catalog) /\
      products_ok t')
  /\
  ProductService.update_product 2 overstocked_product catalog
  = (inl (Library Sqlite.OverflowError), catalog).
Proof.
  split.
  - refine (proj1 (proj2 (proj2 (@update_product_replaces_in_place 2 new_product catalog
                                   catalog_ok new_product_ok eq_refl)))
                  _ eq_refl new_product_storable).
    cbn. auto.
  - refine (proj2 (proj2 (proj2 (@update_product_replaces_in_place 2 overstocked_product
                                   catalog catalog_ok _ eq_refl)))
                  _ eq_refl _ _).
    + split; [reflexivity|]. split; [reflexivity|]. cbn. lia.
    + cbn. auto.
    + repeat split; reflexivity.
    + cbn. lia.
Defined.

(* ================================================================== *)
(** * Listing products *)
(* ================================================================== *)

Lemma rmap_Forall2 {A B} (f : A -> result B) (l : list A) (ys : list B) :
  rmap f l = Ok ys -> Forall2 (fun x y => f x = Ok y) l ys.
Proof.
  revert ys. induction l as [|x l IH]; simpl; intros ys H.
  - unfold Ok in H. injection H as <-. constructor.
  - destruct (f x) as [e|y] eqn:Hx; [discriminate|]. simpl in H.
    destruct (rmap f l) as [e|ys'] eqn:Hl; [discriminate|]. simpl in H.
    unfold Ok in H. injection H as <-. constructor; [exact Hx | now apply IH].
Qed.

Lemma model_validate_stock (p : Product) (d : ProductDTO.t) :
  ProductDTO.model_validate p = Ok d -> ProductDTO.stock d = Entities.stock p.
Proof.
  unfold ProductDTO.model_validate, ProductDTO.new, ProductDTO.price_must_be_positive,
    ProductDTO.stock_must_be_non_negative.
  destruct (PrimFloat.leb (Entities.price p) PrimFloat.zero); [discriminate|].
  destruct (Entities.stock p <? 0)%Z; [discriminate|].
  unfold Ok. intros H. now injection H as <-.
Qed.

Lemma filter_map_entities (p : Product -> bool) (t : ProductDb.table) :
  filter p (List.map entity_of_model t)
  = List.map entity_of_model (filter (fun r => p (entity_of_model r)) t).
Proof.
  induction t as [|x t IH]; simpl; [reflexivity|].
  destruct (p (entity_of_model x)); simpl; now rewrite IH.
Qed.

(** X22.  Every product [get_available_products] returns has a stock
    above zero, on any table; on a sound table it returns exactly the
    rows with a stock above zero, in table order, and does not raise.
    The table is never changed. *)
Theorem available_products_have_stock (t : ProductDb.table) :
  (forall r t', ProductService.get_available_products t = (r, t') -> t' = t)
  /\
  (forall ds t', ProductService.get_available_products t = (inr ds, t') ->
                 Forall (fun d => (0 < ProductDTO.stock d)%Z) ds)
  /\
  (products_ok t ->
   ProductService.get_available_products t
   = (inr (List.map dto_of_model (filter (fun r => (ProductDb.stock r >? 0)%Z) t)), t)).
Proof.
  unfold ProductService.get_available_products, SQLProductRepository.get_all.
  split; [|split].
  - intros r t'. destruct (rmap SQLProductRepository._model_to_entity t);
      cbn; intros H; now injection H as _ <-.
  - intros ds t'.
    destruct (rmap SQLProductRepository._model_to_entity t) as [e|ps]; cbn;
      [discriminate|].
    destruct (rmap ProductDTO.model_validate (filter ProductEntity.is_available ps))
      as [e|ds'] eqn:Hds; cbn; [discriminate|].
    intros H. injection H as <- _.
    apply rmap_Forall2 in Hds.
    assert (Hall : Forall (fun p => (0 < Entities.stock p)%Z)
                          (filter ProductEntity.is_available ps)).
    { apply Forall_forall. intros p Hp. apply filter_In in Hp as [_ Hp].
      unfold ProductEntity.is_available in Hp. lia. }
    induction Hds as [|p d' l l' Hpd _ IH]; [constructor|].
    inversion Hall; subst. constructor; [|now apply IH].
    rewrite (model_validate_stock _ Hpd). assumption.
  - intros (_ & _ & Hrows). rewrite (product_rmap_entities Hrows). cbn [of_result Ok].
    rewrite filter_map_entities.
    change (fun r => ProductEntity.is_available (entity_of_model r))
      with (fun r => (ProductDb.stock r >? 0)%Z).
    rewrite product_rmap_dtos; [reflexivity|].
    rewrite Forall_forall in *. intros x Hx. apply Hrows. now apply filter_In in Hx.
Qed.

Lemma available_products_have_stock_witness :
  ProductService.get_available_products catalog
  = (inr [ dto_of_model (product_row 1 "Nike Air Zoom Pegasus 39" "Nike" "Running"
                                     120%float 15);
           dto_of_model (product_row 3 "Puma Smash V2" "Puma" "Casual" 70%float 20) ],
     catalog).
Proof.
  exact (proj2 (proj2 (available_products_have_stock catalog)) catalog_ok).
Defined.

Section SearchFacts.
Variable lower : str -> str.

(** X23.  [search_products] on a sound table never raises and returns,
    in table order, exactly the products whose brand and category pass
    the filters in use, fields compared after lower-casing; a filter that
    is missing or empty is not in use, so with neither in use the answer
    is that of [get_all_products]. *)
Theorem search_returns_the_matching_products
  (filters : list (str * str)) (t : ProductDb.table) :
  products_ok t ->
  let brand := ProductService.dict_get (lit "brand") filters in
  let category := ProductService.dict_get (lit "category") filters in
  exists rows,
    ProductService.search_products lower filters t
    = (inr (List.map dto_of_model rows), t) /\
    (forall r, In r rows <->
               In r t /\ passes lower brand (ProductDb.brand r)
               /\ passes lower category (ProductDb.category r)) /\
    (exists keep, rows = filter keep t) /\
    (ProductService.given brand = false -> ProductService.given category = false ->
     rows = t /\
     ProductService.search_products lower filters t
     = ProductService.get_all_products t).
Proof.
  intros (_ & _ & Hrows) brand category.
  set (kb := fun r : ProductDb.ProductModel =>
               match brand with
               | Some b => if truthy b
                           then str_eqb (lower (ProductDb.brand r)) (lower b)
                           else true
               | None => true
               end).
  set (kc := fun r : ProductDb.ProductModel =>
               match category with
               | Some c => if truthy c
                           then str_eqb (lower (ProductDb.category r)) (lower c)
                           else true
               | None => true
               end).
  assert (Hkb : forall r, kb r = true <-> passes lower brand (ProductDb.brand r)).
  { intros r. unfold kb, passes. destruct brand as [[|c b]|]; cbn [truthy].
    - split; [intros _ H; contradiction | reflexivity].
    - rewrite str_eqb_eq. split; [auto | intros H; apply H; discriminate].
    - tauto. }
  assert (Hkc : forall r, kc r = true <-> passes lower category (ProductDb.category r)).
  { intros r. unfold kc, passes. destruct category as [[|c b]|]; cbn [truthy].
    - split; [intros _ H; contradiction | reflexivity].
    - rewrite str_eqb_eq. split; [auto | intros H; apply H; discriminate].
    - tauto. }
  exists (filter kc (filter kb t)).
  assert (Hrun : ProductService.search_products lower filters t
                 = (inr (List.map dto_of_model (filter kc (filter kb t))), t)).
  { unfold ProductService.search_products, SQLProductRepository.get_all.
    fold brand category. rewrite (product_rmap_entities Hrows). cbn [of_result Ok].
    assert (Hb : match brand with
                 | Some b => if truthy b
                             then filter (fun p => str_eqb (lower (Entities.brand p)) (lower b))
                                         (List.map entity_of_model t)
                             else List.map entity_of_model t
                 | None => List.map entity_of_model t
                 end = List.map entity_of_model (filter kb t)).
    { unfold kb. destruct brand as [b|]; [destruct (truthy b)|].
      - now rewrite filter_map_entities.
      - f_equal. symmetry. apply forallb_filter_id. now apply forallb_forall.
      - f_equal. symmetry. apply forallb_filter_id. now apply forallb_forall. }
    rewrite Hb.
    assert (Hc : match category with
                 | Some c => if truthy c
                             then filter (fun p => str_eqb (lower (Entities.category p)) (lower c))
                                         (List.map entity_of_model (filter kb t))
                             else List.map entity_of_model (filter kb t)
                 | None => List.map entity_of_model (filter kb t)
                 end = List.map entity_of_model (filter kc (filter kb t))).
    { unfold kc. destruct category as [c|]; [destruct (truthy c)|].
      - now rewrite filter_map_entities.
      - f_equal. symmetry. apply forallb_filter_id. now apply forallb_forall.
      - f_equal. symmetry. apply forallb_filter_id. now apply forallb_forall. }
    rewrite Hc. rewrite product_rmap_dtos; [reflexivity|].
    rewrite Forall_forall in *. intros x Hx. apply Hrows.
    apply filter_In in Hx as [Hx _]. now apply filter_In in Hx. }
  split; [exact Hrun|]. split; [|split].
  - intros r. rewrite !filter_In, Hkb, Hkc. tauto.
  - exists (fun r => kb r && kc r). clear. induction t as [|x t IH]; [reflexivity|].
    simpl. destruct (kb x); simpl; [|exact IH]. destruct (kc x); now rewrite IH.
  - intros Hgb Hgc.
    assert (Hall : filter kc (filter kb t) = t).
    { assert (Hb : filter kb t = t).
      { apply forallb_filter_id, forallb_forall. intros x _. unfold kb.
        unfold ProductService.given in Hgb. destruct brand; [now rewrite Hgb | reflexivity]. }
      rewrite Hb. apply forallb_filter_id, forallb_forall. intros x _. unfold kc.
      unfold ProductService.given in Hgc. destruct category; [now rewrite Hgc | reflexivity]. }
    split; [exact Hall|]. rewrite Hrun, Hall.
    unfold ProductService.get_all_products, SQLProductRepository.get_all.
    rewrite (product_rmap_entities Hrows). cbn [of_result Ok].
    now rewrite (product_rmap_dtos Hrows).
Qed.

End SearchFacts.

Lemma search_returns_the_matching_products_witness :
  ProductService.search_products ascii_lower
    [(lit "brand", lit "NIKE"); (lit "category", [])] catalog
  = (inr [ dto_of_model (product_row 1 "Nike Air Zoom Pegasus 39" "Nike" "Running"
                                     120%float 15) ], catalog)
  /\
  exists rows,
    ProductService.search_products ascii_lower
      [(lit "brand", lit "NIKE"); (lit "category", [])] catalog
    = (inr (List.map dto_of_model rows), catalog) /\
    (forall r, In r rows <->
               In r catalog /\
               passes ascii_lower (Some (lit "NIKE")) (ProductDb.brand r) /\
               passes ascii_lower (Some []) (ProductDb.category r)).
Proof.
  split; [reflexivity|].
  destruct (@search_returns_the_matching_products ascii_lower
              [(lit "brand", lit "NIKE"); (lit "category", [])] catalog catalog_ok)
    as (rows & Hrun & Hin & _).
  exists rows. split; [exact Hrun | exact Hin].
Defined.
